(** * CryptoLedger: the FIFO profit/loss calculator, the portfolio and the
      tax report

    A shallow embedding of [calculator.py] (class [ProfitLossCalculator]),
    of [portfolio.py] (class [Portfolio], without the historical chart), of
    [generate_report] of [tax_reporter.py] and of the classes of [models.py]
    they use ([Transaction], [PortfolioItem], [TaxReport]), followed by the
    properties of the FIFO lot-matching engine, of the holdings and their
    valuation, and of the report.

    Modelling conventions.
    - Python [float] quantities and prices are exact rationals ([Q]); the
      arithmetic of the source is written with [Qplus], [Qminus], [Qmult] and
      a division that raises [ZeroDivisionError] on a zero divisor.
    - A Python [dict] keeps insertion order, and the calculator iterates over
      its dictionaries, so a dictionary is an association list in insertion
      order ([Dict]).
    - [datetime] values are the seven calendar fields; comparison, [.year]
      and the [.days] of a difference follow the standard library.
    - The calculator object holds a reference to its inventory dictionary;
      dictionaries owned by a calculator live in a heap of objects, and
      [print] appends a line to the standard output.  Methods are
      computations in a state-and-exception monad over that world.
    - The price service of the portfolio is outside the model: a method
      that asks it for prices takes the answer, a dictionary from symbols
      to prices, as a function of the request.
    - [str.upper] is taken on ASCII text.

    The first part holds the definitions: the embedding of the source, the
    engine as a fold, and the vocabulary of the properties.  The second
    part holds the proofs: that the methods never raise and compute the
    fold, then the properties of the engine and of the aggregations. *)

From Stdlib Require Import List String Bool ZArith QArith Lia Lqa.
From Stdlib Require Import Sorting.Sorted Sorting.Permutation.
Import ListNotations.

Local Open Scope Z_scope.

(* ====================================================================== *)
(** ** Rational comparisons used by the source *)

(** [a > 0], [a < b] on rationals, as booleans. *)
Definition Qlt_bool (a b : Q) : bool := negb (Qle_bool b a).

(* ====================================================================== *)
(** ** [datetime] (standard library) *)

Module Datetime.

(** A naive [datetime]: year, month, day, hour, minute, second,
    microsecond. *)
Record datetime : Type := mkDatetime {
  year : Z;
  month : Z;
  day : Z;
  hour : Z;
  minute : Z;
  second : Z;
  microsecond : Z
}.

Definition fields (d : datetime) : list Z :=
  [year d; month d; day d; hour d; minute d; second d; microsecond d].

(** Tuple comparison, first difference decides. *)
Fixpoint lex_compare (a b : list Z) : comparison :=
  match a, b with
  | [], [] => Eq
  | [], _ :: _ => Lt
  | _ :: _, [] => Gt
  | x :: a', y :: b' =>
      match Z.compare x y with
      | Eq => lex_compare a' b'
      | c => c
      end
  end.

Definition compare (a b : datetime) : comparison :=
  lex_compare (fields a) (fields b).

(** [a < b] *)
Definition ltb (a b : datetime) : bool :=
  match compare a b with Lt => true | _ => false end.

(** [a <= b] *)
Definition leb (a b : datetime) : bool :=
  match compare a b with Gt => false | _ => true end.

Definition is_leap (y : Z) : bool :=
  (y mod 4 =? 0) && (negb (y mod 100 =? 0) || (y mod 400 =? 0)).

(** Number of days before January 1st of year [y]. *)
Definition days_before_year (y : Z) : Z :=
  let y1 := y - 1 in
  y1 * 365 + y1 / 4 - y1 / 100 + y1 / 400.

Definition DAYS_BEFORE_MONTH : list Z :=
  [0; 0; 31; 59; 90; 120; 151; 181; 212; 243; 273; 304; 334].

(** Number of days in year [y] before the first day of month [m]. *)
Definition days_before_month (y m : Z) : Z :=
  nth (Z.to_nat m) DAYS_BEFORE_MONTH 0
  + (if (2 <? m) && is_leap y then 1 else 0).

(** Proleptic Gregorian ordinal: 0001-01-01 is day 1. *)
Definition toordinal (d : datetime) : Z :=
  days_before_year (year d) + days_before_month (year d) (month d) + day d.

Definition seconds_of_day (d : datetime) : Z :=
  second d + minute d * 60 + hour d * 3600.

(** [(a - b).days]: the difference is a [timedelta] normalised so that
    its seconds and microseconds are non-negative, hence the floor. *)
Definition sub_days (a b : datetime) : Z :=
  (((toordinal a - toordinal b) * 86400
    + (seconds_of_day a - seconds_of_day b)) * 1000000
   + (microsecond a - microsecond b)) / (86400 * 1000000).

(** A calendar date at midnight. *)
Definition date (y m d : Z) : datetime := mkDatetime y m d 0 0 0 0.

End Datetime.

Definition datetime : Type := Datetime.datetime.

(* ====================================================================== *)
(** ** Insertion-ordered dictionaries with string keys *)

Module Dict.
Section WithValue.
Context {V : Type}.

Definition t : Type := list (string * V).

(** [{}] *)
Definition empty : t := [].

(** [d.get(k)] *)
Fixpoint get (k : string) (d : t) : option V :=
  match d with
  | [] => None
  | (k', v) :: d' => if String.eqb k k' then Some v else get k d'
  end.

(** [k in d] *)
Definition contains (k : string) (d : t) : bool :=
  match get k d with Some _ => true | None => false end.

(** [d[k] = v]: an existing key keeps its position, a new key goes
    last. *)
Fixpoint set (k : string) (v : V) (d : t) : t :=
  match d with
  | [] => [(k, v)]
  | (k', v') :: d' =>
      if String.eqb k k' then (k, v) :: d' else (k', v') :: set k v d'
  end.

(** [d.items()] *)
Definition items (d : t) : list (string * V) := d.

Definition keys (d : t) : list string := map fst d.
Definition values (d : t) : list V := map snd d.
End WithValue.
Arguments t : clear implicits.
End Dict.

(* ====================================================================== *)
(** ** Data model ([models.py] and the tuples and dictionaries of
       [calculator.py]) *)

(** [models.Transaction], as constructed ([__post_init__] has set the date
    and put the symbols in upper case). *)
Record Transaction : Type := mkTransaction {
  tx_id : option Z;
  tx_wallet_id : Z;
  tx_transaction_type : string;
  tx_crypto_symbol : string;
  tx_quantity : Q;
  tx_price_per_unit : Q;
  tx_fiat_currency : string;
  tx_fee : Q;
  tx_transaction_date : datetime;
  tx_notes : string;
  tx_created_at : option datetime
}.

(** [Transaction.total_cost] *)
Definition total_cost (tx : Transaction) : Q :=
  (tx_quantity tx * tx_price_per_unit tx)%Q.

(** [Transaction.total_with_fee] *)
Definition total_with_fee (tx : Transaction) : Q :=
  (total_cost tx + tx_fee tx)%Q.

(** An inventory lot, the tuple
    [(quantity, price_per_unit, transaction_date, id)] of the buying
    transaction, unpacked in the source as
    [buy_qty, buy_price, buy_date, buy_id]. *)
Record Lot : Type := mkLot {
  buy_qty : Q;
  buy_price : Q;
  buy_date : datetime;
  buy_id : option Z
}.

(** A realized-gain record, the dictionary appended to
    [realized_gains[symbol]]. *)
Record Gain : Type := mkGain {
  gain_buy_date : datetime;
  gain_sell_date : datetime;
  gain_buy_price : Q;
  gain_sell_price : Q;
  gain_quantity : Q;
  gain_cost_basis : Q;
  gain_proceeds : Q;
  gain_gain : Q;
  gain_term : string;
  gain_holding_period_days : Z;
  gain_buy_transaction_id : option Z;
  gain_sell_transaction_id : option Z
}.

(** [{symbol: [lot, ...]}] *)
Definition Inventory : Type := Dict.t (list Lot).

(** [{symbol: [gain, ...]}] *)
Definition RealizedGains : Type := Dict.t (list Gain).

(* ====================================================================== *)
(** ** Exceptions, the world and the monad of methods *)

Inductive exception : Type :=
| KeyError (key : string)
| ZeroDivisionError.

Inductive outcome (A : Type) : Type :=
| Ok (a : A)
| Raise (e : exception).
Arguments Ok {A} a.
Arguments Raise {A} e.

(** The objects a calculator shares with its callers: the inventory
    dictionaries it has created, by address, and the standard output. *)
Record World : Type := mkWorld {
  heap : list Inventory;
  stdout : list string
}.

(** A method: it may read and change the world, and it returns or raises. *)
Definition M (A : Type) : Type := World -> outcome (A * World).

Definition ret {A : Type} (a : A) : M A := fun w => Ok (a, w).

Definition bind {A B : Type} (m : M A) (k : A -> M B) : M B :=
  fun w =>
    match m w with
    | Ok (a, w') => k a w'
    | Raise e => Raise e
    end.

Definition raise {A : Type} (e : exception) : M A := fun _ => Raise e.

Declare Scope py_scope.
Delimit Scope py_scope with py.
Notation "x <- m ;; k" := (bind m (fun x => k))
  (at level 61, m at next level, right associativity) : py_scope.
Notation "m ;; k" := (bind m (fun _ => k))
  (at level 61, right associativity) : py_scope.
Local Open Scope py_scope.

(** [{}]: a new dictionary object; its address is returned. *)
Definition new_dict : M nat :=
  fun w => Ok (List.length (heap w),
               {| heap := heap w ++ [Dict.empty]; stdout := stdout w |}).

(** The dictionary at an address. *)
Definition load (a : nat) : M Inventory :=
  fun w => Ok (nth a (heap w) Dict.empty, w).

Fixpoint update {A : Type} (a : nat) (x : A) (l : list A) : list A :=
  match l, a with
  | [], _ => []
  | _ :: l', O => x :: l'
  | y :: l', S a' => y :: update a' x l'
  end.

(** In-place change of the dictionary at an address. *)
Definition store (a : nat) (d : Inventory) : M unit :=
  fun w => Ok (tt, {| heap := update a d (heap w); stdout := stdout w |}).

(** [print(line)] *)
Definition print (line : string) : M unit :=
  fun w => Ok (tt, {| heap := heap w; stdout := stdout w ++ [line] |}).

(** [d[k]], which raises [KeyError] on a missing key. *)
Definition getitem {V : Type} (k : string) (d : Dict.t V) : M V :=
  match Dict.get k d with
  | Some v => ret v
  | None => raise (KeyError k)
  end.

(** [a / b] on numbers. *)
Definition truediv (a b : Q) : M Q :=
  if Qeq_bool b 0 then raise ZeroDivisionError else ret (a / b)%Q.

(** [for x in l: acc = body x acc] *)
Fixpoint for_each {A S : Type} (l : list A) (body : A -> S -> M S) (acc : S)
  : M S :=
  match l with
  | [] => ret acc
  | x :: l' => acc' <- body x acc ;; for_each l' body acc'
  end.

(* ====================================================================== *)
(** ** [calculator.ProfitLossCalculator] *)

(** The calculator object: [self.transactions], and [self.inventory], a
    reference to a dictionary object. *)
Record ProfitLossCalculator : Type := mkCalculator {
  self_transactions : list Transaction;
  self_inventory : nat
}.

(** [list.sort(key=lambda x: x.transaction_date)]: the sort is stable, so
    each element goes behind the elements whose date is not later. *)
Fixpoint insert_by_date (tx : Transaction) (l : list Transaction)
  : list Transaction :=
  match l with
  | [] => [tx]
  | y :: l' =>
      if Datetime.ltb (tx_transaction_date tx) (tx_transaction_date y)
      then tx :: y :: l'
      else y :: insert_by_date tx l'
  end.

Definition sort_by_date (l : list Transaction) : list Transaction :=
  fold_left (fun sorted tx => insert_by_date tx sorted) l [].

(** [ProfitLossCalculator(transactions)], on [Transaction] objects. *)
Definition init (transactions : list Transaction) : M ProfitLossCalculator :=
  inv <- new_dict ;;
  ret {| self_transactions := sort_by_date transactions;
         self_inventory := inv |}.

(** [self.load_transactions(transactions)], on [Transaction] objects. *)
Definition load_transactions (self : ProfitLossCalculator)
    (transactions : list Transaction) : M ProfitLossCalculator :=
  inv <- new_dict ;;
  ret {| self_transactions := sort_by_date transactions;
         self_inventory := inv |}.

(** The variables of the FIFO loop of a sale: [remaining_qty],
    [cost_basis], the list [self.inventory[symbol]] and the list
    [realized_gains[symbol]].  ([sell_proceeds] is assigned before the
    loop and never read.) *)
Record SellState : Type := mkSellState {
  remaining_qty : Q;
  cost_basis : Q;
  lots : list Lot;
  gains : list Gain
}.

(** ['long' if holding_period > 365 else 'short'] *)
Definition term_of (holding_period : Z) : string :=
  if 365 <? holding_period then "long"%string else "short"%string.

(** The record appended for [used_qty] units of a lot sold by [tx]. *)
Definition make_gain (tx : Transaction) (lot : Lot) (used_qty : Q) : Gain :=
  let portion_cost := (used_qty * buy_price lot)%Q in
  let portion_proceeds := (used_qty * tx_price_per_unit tx)%Q in
  let gain := (portion_proceeds - portion_cost)%Q in
  let holding_period :=
    Datetime.sub_days (tx_transaction_date tx) (buy_date lot) in
  let term := term_of holding_period in
  {| gain_buy_date := buy_date lot;
     gain_sell_date := tx_transaction_date tx;
     gain_buy_price := buy_price lot;
     gain_sell_price := tx_price_per_unit tx;
     gain_quantity := used_qty;
     gain_cost_basis := portion_cost;
     gain_proceeds := portion_proceeds;
     gain_gain := gain;
     gain_term := term;
     gain_holding_period_days := holding_period;
     gain_buy_transaction_id := buy_id lot;
     gain_sell_transaction_id := tx_id tx |}.



(** The loop as a recursion on the lot queue: a lot used entirely is
    popped and the loop goes on with the rest; a lot used in part stays at
    the head and leaves [remaining_qty - remaining_qty], which ends the
    loop.  This is the state in which [sell_while] exits
    ([sell_while_sell_loop]). *)
Fixpoint sell_loop (tx : Transaction) (remaining cost : Q)
    (queue : list Lot) (emitted : list Gain) : SellState :=
  match queue with
  | [] => mkSellState remaining cost [] emitted
  | lot :: rest =>
      if Qlt_bool 0 remaining then
        if Qle_bool (buy_qty lot) remaining then
          sell_loop tx (remaining - buy_qty lot)%Q
            (cost + buy_qty lot * buy_price lot)%Q rest
            (emitted ++ [make_gain tx lot (buy_qty lot)])
        else
          mkSellState (remaining - remaining)%Q
            (cost + remaining * buy_price lot)%Q
            ({| buy_qty := (buy_qty lot - remaining)%Q;
                buy_price := buy_price lot;
                buy_date := buy_date lot;
                buy_id := buy_id lot |} :: rest)
            (emitted ++ [make_gain tx lot remaining])
      else mkSellState remaining cost queue emitted
  end.

(** The message of the shortfall warning. *)
Definition shortfall_warning (symbol : string) : string :=
  ("Warning: Trying to sell more " ++ symbol
   ++ " than available in inventory.")%string.

(** The body of [for tx in self.transactions:]. *)
Definition process_transaction (self : ProfitLossCalculator)
    (tx : Transaction) (realized_gains : RealizedGains) : M RealizedGains :=
  let symbol := tx_crypto_symbol tx in
  inventory <- load (self_inventory self) ;;
  (if Dict.contains symbol inventory then ret tt
   else store (self_inventory self) (Dict.set symbol [] inventory)) ;;
  let realized_gains :=
    if Dict.contains symbol realized_gains then realized_gains
    else Dict.set symbol [] realized_gains in
  if String.eqb (tx_transaction_type tx) "buy"
     || String.eqb (tx_transaction_type tx) "transfer_in" then
    inventory <- load (self_inventory self) ;;
    queue <- getitem symbol inventory ;;
    store (self_inventory self)
      (Dict.set symbol
         (queue ++ [{| buy_qty := tx_quantity tx;
                       buy_price := tx_price_per_unit tx;
                       buy_date := tx_transaction_date tx;
                       buy_id := tx_id tx |}])
         inventory) ;;
    ret realized_gains
  else if String.eqb (tx_transaction_type tx) "sell"
          || String.eqb (tx_transaction_type tx) "transfer_out" then
    inventory <- load (self_inventory self) ;;
    queue <- getitem symbol inventory ;;
    emitted <- getitem symbol realized_gains ;;
    let s := sell_loop tx (tx_quantity tx) 0 queue emitted in
    store (self_inventory self) (Dict.set symbol (lots s) inventory) ;;
    (if Qlt_bool 0 (remaining_qty s) then print (shortfall_warning symbol)
     else ret tt) ;;
    ret (Dict.set symbol (gains s) realized_gains)
  else if String.eqb (tx_transaction_type tx) "exchange" then
    ret realized_gains
  else
    ret realized_gains.

(** The dictionary returned by [process_transactions]; ['inventory'] is
    the object [self.inventory] itself. *)
Record ProcessResult : Type := mkProcessResult {
  realized_gains : RealizedGains;
  inventory : nat
}.

(** [self.process_transactions()] *)
Definition process_transactions (self : ProfitLossCalculator)
  : M (ProcessResult * ProfitLossCalculator) :=
  inv <- new_dict ;;
  let self := {| self_transactions := self_transactions self;
                 self_inventory := inv |} in
  realized_gains <-
    for_each (self_transactions self) (process_transaction self) Dict.empty ;;
  ret ({| realized_gains := realized_gains;
          inventory := self_inventory self |}, self).







(** [sum(...)] *)
Definition py_sum (l : list Q) : Q := fold_left Qplus l 0%Q.

(** A lot as listed by [get_current_inventory]. *)
Record LotDetail : Type := mkLotDetail {
  detail_quantity : Q;
  detail_price : Q;
  detail_date : datetime;
  detail_transaction_id : option Z
}.

(** The entry of a symbol in the result of [get_current_inventory]. *)
Record Holding : Type := mkHolding {
  holding_quantity : Q;
  holding_average_cost : Q;
  holding_lots : list LotDetail
}.

(** The body of [for symbol, lots in inventory.items():]. *)
Definition summarize (item : string * list Lot)
    (inventory_summary : Dict.t Holding) : M (Dict.t Holding) :=
  let (symbol, queue) := item in
  let total_quantity := py_sum (map buy_qty queue) in
  if Qlt_bool 0 total_quantity then
    avg_price <-
      truediv (py_sum (map (fun lot => (buy_qty lot * buy_price lot)%Q) queue))
              total_quantity ;;
    ret (Dict.set symbol
           {| holding_quantity := total_quantity;
              holding_average_cost := avg_price;
              holding_lots :=
                map (fun lot =>
                       {| detail_quantity := buy_qty lot;
                          detail_price := buy_price lot;
                          detail_date := buy_date lot;
                          detail_transaction_id := buy_id lot |}) queue |}
           inventory_summary)
  else ret inventory_summary.

(** [self.get_current_inventory()] *)
Definition get_current_inventory (self : ProfitLossCalculator)
  : M (Dict.t Holding * ProfitLossCalculator) :=
  r <- process_transactions self ;;
  let (result, self) := r in
  inventory <- load (inventory result) ;;
  inventory_summary <- for_each (Dict.items inventory) summarize Dict.empty ;;
  ret (inventory_summary, self).

(** The entry of a symbol in ['by_symbol']. *)
Record Unrealized : Type := mkUnrealized {
  unrealized_quantity : Q;
  unrealized_average_cost : Q;
  unrealized_current_price : Q;
  unrealized_market_value : Q;
  unrealized_cost_basis : Q;
  unrealized_unrealized_gain : Q
}.

(** The dictionary returned by [calculate_unrealized_gains]. *)
Record UnrealizedReport : Type := mkUnrealizedReport {
  by_symbol : Dict.t Unrealized;
  total_unrealized_gain : Q
}.

(** The body of [for symbol, inv in inventory.items():], on the pair
    [(unrealized_gains, total_unrealized_gain)]. *)
Definition value_holding (current_prices : Dict.t Q)
    (item : string * Holding) (acc : Dict.t Unrealized * Q)
  : M (Dict.t Unrealized * Q) :=
  let (symbol, inv) := item in
  let (unrealized_gains, total) := acc in
  if Dict.contains symbol current_prices then
    current_price <- getitem symbol current_prices ;;
    let quantity := holding_quantity inv in
    let avg_cost := holding_average_cost inv in
    let market_value := (quantity * current_price)%Q in
    let cost_basis := (quantity * avg_cost)%Q in
    let unrealized_gain := (market_value - cost_basis)%Q in
    ret (Dict.set symbol
           {| unrealized_quantity := quantity;
              unrealized_average_cost := avg_cost;
              unrealized_current_price := current_price;
              unrealized_market_value := market_value;
              unrealized_cost_basis := cost_basis;
              unrealized_unrealized_gain := unrealized_gain |}
           unrealized_gains,
         (total + unrealized_gain)%Q)
  else ret acc.

(** [self.calculate_unrealized_gains(current_prices)] *)
Definition calculate_unrealized_gains (self : ProfitLossCalculator)
    (current_prices : Dict.t Q)
  : M (UnrealizedReport * ProfitLossCalculator) :=
  r <- get_current_inventory self ;;
  let (inventory, self) := r in
  acc <- for_each (Dict.items inventory) (value_holding current_prices)
           (Dict.empty, 0%Q) ;;
  ret ({| by_symbol := fst acc; total_unrealized_gain := snd acc |}, self).

(* ====================================================================== *)
(** ** The engine as a fold

    The state the loop of [process_transactions] works on: the content of
    the dictionary [self.inventory], the local [realized_gains], and the
    lines printed so far.  [step] is the effect of one pass through the
    loop body on that state; [process_transaction_step] below shows that
    the method does exactly this to the world. *)

Record Engine : Type := mkEngine {
  eng_inventory : Inventory;
  eng_realized : RealizedGains;
  eng_printed : list string
}.

(** [if symbol not in d: d[symbol] = []] *)
Definition ensure {V : Type} (symbol : string) (d : Dict.t (list V))
  : Dict.t (list V) :=
  if Dict.contains symbol d then d else Dict.set symbol [] d.

(** The list under a symbol, empty when the symbol has no entry. *)
Definition entry {V : Type} (symbol : string) (d : Dict.t (list V)) : list V :=
  match Dict.get symbol d with
  | Some l => l
  | None => []
  end.

(** [tx.transaction_type == 'buy' or tx.transaction_type == 'transfer_in'] *)
Definition is_acquisition (tx : Transaction) : bool :=
  String.eqb (tx_transaction_type tx) "buy"
  || String.eqb (tx_transaction_type tx) "transfer_in".

(** [tx.transaction_type == 'sell' or tx.transaction_type == 'transfer_out'] *)
Definition is_disposal (tx : Transaction) : bool :=
  String.eqb (tx_transaction_type tx) "sell"
  || String.eqb (tx_transaction_type tx) "transfer_out".

(** The lot appended for an acquisition. *)
Definition lot_of (tx : Transaction) : Lot :=
  {| buy_qty := tx_quantity tx;
     buy_price := tx_price_per_unit tx;
     buy_date := tx_transaction_date tx;
     buy_id := tx_id tx |}.

(** The state in which the FIFO loop of the sale [tx] ends. *)
Definition sale (tx : Transaction) (e : Engine) : SellState :=
  sell_loop tx (tx_quantity tx) 0
    (entry (tx_crypto_symbol tx) (eng_inventory e))
    (entry (tx_crypto_symbol tx) (eng_realized e)).

(** One pass through the body of [for tx in self.transactions:]. *)
Definition step (e : Engine) (tx : Transaction) : Engine :=
  let symbol := tx_crypto_symbol tx in
  let inv := ensure symbol (eng_inventory e) in
  let rg := ensure symbol (eng_realized e) in
  if is_acquisition tx then
    {| eng_inventory := Dict.set symbol (entry symbol inv ++ [lot_of tx]) inv;
       eng_realized := rg;
       eng_printed := eng_printed e |}
  else if is_disposal tx then
    let s := sale tx e in
    {| eng_inventory := Dict.set symbol (lots s) inv;
       eng_realized := Dict.set symbol (gains s) rg;
       eng_printed :=
         if Qlt_bool 0 (remaining_qty s)
         then eng_printed e ++ [shortfall_warning symbol]
         else eng_printed e |}
  else
    {| eng_inventory := inv; eng_realized := rg;
       eng_printed := eng_printed e |}.

(** The loop over a list of transactions. *)
Definition run (e : Engine) (txs : list Transaction) : Engine :=
  fold_left step txs e.

(** The engine started by [process_transactions] in a world whose output
    is [out]. *)
Definition start (out : list string) : Engine :=
  {| eng_inventory := Dict.empty; eng_realized := Dict.empty;
     eng_printed := out |}.

(* ====================================================================== *)
(** ** Vocabulary of the properties *)

(** The content of the dictionary object at an address. *)
Definition contents (a : nat) (w : World) : Inventory :=
  nth a (heap w) Dict.empty.

(** What a run of [process_transactions] over [txs] leaves for its caller:
    the content of the returned inventory, the returned realized gains and
    the standard output after the run. *)
Definition observe (txs : list Transaction) (w : World) : option Engine :=
  match process_transactions (mkCalculator txs 0) w with
  | Ok (result, _, w') =>
      Some {| eng_inventory := contents (inventory result) w';
              eng_realized := realized_gains result;
              eng_printed := stdout w' |}
  | Raise _ => None
  end.

(** Quantity in a lot queue. *)
Definition held (queue : list Lot) : Q := py_sum (map buy_qty queue).

(** Quantity in a list of realized gains. *)
Definition matched (l : list Gain) : Q := py_sum (map gain_quantity l).

(** The record of a lot used entirely. *)
Definition full_gain (tx : Transaction) (lot : Lot) : Gain :=
  make_gain tx lot (buy_qty lot).

(** A lot after [used] units were taken from it. *)
Definition reduce (lot : Lot) (used : Q) : Lot :=
  {| buy_qty := (buy_qty lot - used)%Q;
     buy_price := buy_price lot;
     buy_date := buy_date lot;
     buy_id := buy_id lot |}.


(** Sum of the quantities of the [buy] and [transfer_in] transactions of a
    symbol. *)
Definition acquired (sym : string) (txs : list Transaction) : Q :=
  py_sum (map tx_quantity
            (filter (fun tx => String.eqb sym (tx_crypto_symbol tx)
                               && is_acquisition tx) txs)).

(** Sum of the quantities of the [sell] and [transfer_out] transactions of
    a symbol. *)
Definition disposed (sym : string) (txs : list Transaction) : Q :=
  py_sum (map tx_quantity
            (filter (fun tx => String.eqb sym (tx_crypto_symbol tx)
                               && is_disposal tx) txs)).


(** [a <= b] on dates. *)
Definition date_le (a b : datetime) : Prop := Datetime.leb a b = true.

(** A list of transactions in the order of their dates. *)
Definition chronological (txs : list Transaction) : Prop :=
  StronglySorted (fun x y => date_le (tx_transaction_date x)
                                     (tx_transaction_date y)) txs.


(** Two engines with the same lists under every symbol and the same
    output. *)
Definition same_books (e e' : Engine) : Prop :=
  (forall sym, entry sym (eng_inventory e) = entry sym (eng_inventory e'))
  /\ (forall sym, entry sym (eng_realized e) = entry sym (eng_realized e'))
  /\ eng_printed e = eng_printed e'.

(** What the loop writes into a record. *)
Definition coherent (g : Gain) : Prop :=
  gain_cost_basis g = (gain_quantity g * gain_buy_price g)%Q
  /\ gain_proceeds g = (gain_quantity g * gain_sell_price g)%Q
  /\ gain_gain g = (gain_proceeds g - gain_cost_basis g)%Q
  /\ gain_holding_period_days g
     = Datetime.sub_days (gain_sell_date g) (gain_buy_date g)
  /\ gain_term g = term_of (gain_holding_period_days g).





(** The entry [get_current_inventory] makes for a queue. *)
Definition holding_of (queue : list Lot) : Holding :=
  {| holding_quantity := held queue;
     holding_average_cost :=
       (py_sum (map (fun lot => (buy_qty lot * buy_price lot)%Q) queue)
        / held queue)%Q;
     holding_lots :=
       map (fun lot =>
              {| detail_quantity := buy_qty lot;
                 detail_price := buy_price lot;
                 detail_date := buy_date lot;
                 detail_transaction_id := buy_id lot |}) queue |}.

(** The summary of an inventory: an entry for every symbol whose queue
    holds a positive quantity, in the order of the inventory. *)
Definition summary_of (inv : Inventory) : Dict.t Holding :=
  flat_map (fun item : string * list Lot =>
              if Qlt_bool 0 (held (snd item))
              then [(fst item, holding_of (snd item))] else [])
           inv.

(** The entry [calculate_unrealized_gains] makes for a holding. *)
Definition valuation (current_price : Q) (inv : Holding) : Unrealized :=
  {| unrealized_quantity := holding_quantity inv;
     unrealized_average_cost := holding_average_cost inv;
     unrealized_current_price := current_price;
     unrealized_market_value := (holding_quantity inv * current_price)%Q;
     unrealized_cost_basis :=
       (holding_quantity inv * holding_average_cost inv)%Q;
     unrealized_unrealized_gain :=
       (holding_quantity inv * current_price
        - holding_quantity inv * holding_average_cost inv)%Q |}.

(** The valuations of the holdings that have a price, in the order of the
    summary. *)
Definition priced (current_prices : Dict.t Q) (summary : Dict.t Holding)
  : Dict.t Unrealized :=
  flat_map (fun item : string * Holding =>
              match Dict.get (fst item) current_prices with
              | Some price => [(fst item, valuation price (snd item))]
              | None => []
              end)
           summary.

(** Sum of the [unrealized_gain] fields, from the left. *)
Definition unrealized_sum (from : Q) (l : list Unrealized) : Q :=
  fold_left (fun acc u => (acc + unrealized_unrealized_gain u)%Q) l from.




(* ====================================================================== *)
(** ** Concrete ledgers *)

Module Examples.
Definition tx (id : Z) (kind symbol : string) (quantity price : Q)
    (date : datetime) : Transaction :=
  {| tx_id := Some id; tx_wallet_id := 1; tx_transaction_type := kind;
     tx_crypto_symbol := symbol; tx_quantity := quantity;
     tx_price_per_unit := price; tx_fiat_currency := "USD"; tx_fee := 0;
     tx_transaction_date := date; tx_notes := ""; tx_created_at := None |}.

(** An empty heap and an empty output. *)
Definition fresh_world : World := {| heap := []; stdout := [] |}.

Definition eth_buy : Transaction :=
  tx 1 "buy" "ETH" 3 100 (Datetime.date 2023 1 1).

Definition eth_sell (quantity : Q) : Transaction :=
  tx 2 "sell" "ETH" quantity 150 (Datetime.date 2023 2 1).

(** Two purchases of BTC and a sale that uses the first lot and half of
    the second. *)
Definition btc_ledger : list Transaction :=
  [ tx 1 "buy" "BTC" 1 10000 (Datetime.date 2022 1 1);
    tx 2 "buy" "BTC" 1 20000 (Datetime.date 2022 6 1);
    tx 3 "sell" "BTC" (3 # 2) 30000 (Datetime.date 2023 1 1) ].

(** A purchase, a sale 365 days later and a sale 366 days later. *)
Definition year_ledger : list Transaction :=
  [ tx 1 "buy" "BTC" 2 10000 (Datetime.date 2022 1 1);
    tx 2 "sell" "BTC" 1 30000 (Datetime.date 2023 1 1);
    tx 3 "sell" "BTC" 1 30000 (Datetime.date 2023 1 2) ].

Definition calculator (txs : list Transaction) : ProfitLossCalculator :=
  {| self_transactions := txs; self_inventory := 0 |}.

(** An exchange, recorded under BTC. *)
Definition idle_exchange : Transaction :=
  tx 4 "exchange" "BTC" 1 2000 (Datetime.date 2023 1 15).




End Examples.

(* ====================================================================== *)
(** ** Vocabulary of the accounting identities *)

(** What the lots of a queue cost: the sum of quantity times price. *)
Definition lots_cost (queue : list Lot) : Q :=
  py_sum (map (fun lot => (buy_qty lot * buy_price lot)%Q) queue).






(** A lot that comes from an acquisition of the ledger: it has the price,
    the date and the id of the acquisition, and no more than its
    quantity. *)
Definition lot_from (txs : list Transaction) (sym : string) (lot : Lot)
  : Prop :=
  exists pre buy post,
    txs = pre ++ buy :: post
    /\ is_acquisition buy = true
    /\ tx_crypto_symbol buy = sym
    /\ buy_price lot = tx_price_per_unit buy
    /\ buy_date lot = tx_transaction_date buy
    /\ buy_id lot = tx_id buy
    /\ (buy_qty lot <= tx_quantity buy)%Q
    /\ ((0 < tx_quantity buy)%Q -> (0 < buy_qty lot)%Q).

(** A realized gain that pairs an acquisition of the ledger with a
    disposal that comes later in the ledger. *)
Definition gain_from (txs : list Transaction) (sym : string) (g : Gain)
  : Prop :=
  exists pre buy mid sell post,
    txs = pre ++ buy :: mid ++ sell :: post
    /\ is_acquisition buy = true
    /\ is_disposal sell = true
    /\ tx_crypto_symbol buy = sym
    /\ tx_crypto_symbol sell = sym
    /\ g = make_gain sell (lot_of buy) (gain_quantity g)
    /\ (gain_quantity g <= tx_quantity buy)%Q
    /\ ((0 < tx_quantity buy)%Q -> (0 < gain_quantity g)%Q).

(* ====================================================================== *)
(** ** Well-formed [datetime] values *)

(** Number of days of month [m] in year [y]. *)
Definition days_in_month (y m : Z) : Z :=
  nth (Z.to_nat m) [0; 31; 28; 31; 30; 31; 30; 31; 31; 30; 31; 30; 31] 0
  + (if (m =? 2) && Datetime.is_leap y then 1 else 0).

(** The ranges the constructor of [datetime] accepts. *)
Definition valid_datetime (d : datetime) : Prop :=
  1 <= Datetime.year d <= 9999
  /\ 1 <= Datetime.month d <= 12
  /\ 1 <= Datetime.day d <= days_in_month (Datetime.year d) (Datetime.month d)
  /\ 0 <= Datetime.hour d < 24
  /\ 0 <= Datetime.minute d < 60
  /\ 0 <= Datetime.second d < 60
  /\ 0 <= Datetime.microsecond d < 1000000.

(* ====================================================================== *)
(** ** [str.upper()] *)

(** Upper case of a character; the letters [a] to [z] are the only ones
    that change (the text is ASCII: tickers and currency codes). *)
Definition upper_ascii (c : Ascii.ascii) : Ascii.ascii :=
  let n := Ascii.nat_of_ascii c in
  if (97 <=? n)%nat && (n <=? 122)%nat
  then Ascii.ascii_of_nat (n - 32) else c.

(** [s.upper()] *)
Fixpoint upper (s : string) : string :=
  match s with
  | EmptyString => EmptyString
  | String c s' => String (upper_ascii c) (upper s')
  end.

(* ====================================================================== *)
(** ** [models.PortfolioItem] and [models.TaxReport] *)

Module PortfolioItem.

(** The object, after [__post_init__]. *)
Record t : Type := mk {
  crypto_symbol : string;
  quantity : Q;
  current_price : option Q;
  fiat_currency : string
}.

(** [PortfolioItem(crypto_symbol, quantity, current_price, fiat_currency)]:
    [__post_init__] puts the symbol and the currency in upper case. *)
Definition new (symbol : string) (qty : Q) (price : option Q)
    (fiat : string) : t :=
  {| crypto_symbol := upper symbol; quantity := qty;
     current_price := price; fiat_currency := upper fiat |}.

(** [item.current_value] *)
Definition current_value (item : t) : option Q :=
  match current_price item with
  | Some price => Some (quantity item * price)%Q
  | None => None
  end.

(** The dictionary of [item.to_dict()]. *)
Record dict : Type := mkDict {
  dict_crypto_symbol : string;
  dict_quantity : Q;
  dict_current_price : option Q;
  dict_fiat_currency : string;
  dict_current_value : option Q
}.

(** [item.to_dict()] *)
Definition to_dict (item : t) : dict :=
  {| dict_crypto_symbol := crypto_symbol item;
     dict_quantity := quantity item;
     dict_current_price := current_price item;
     dict_fiat_currency := fiat_currency item;
     dict_current_value := current_value item |}.

End PortfolioItem.

Module TaxReport.

(** The object, after [__post_init__]. *)
Record t : Type := mk {
  year : Z;
  fiat_currency : string;
  short_term_gains : Q;
  long_term_gains : Q;
  transactions : list Gain
}.

(** [TaxReport(year, fiat_currency, short_term_gains, long_term_gains,
    transactions)], with a list for [transactions]: [__post_init__] puts
    the currency in upper case. *)
Definition new (y : Z) (fiat : string) (short long : Q)
    (detail : list Gain) : t :=
  {| year := y; fiat_currency := upper fiat; short_term_gains := short;
     long_term_gains := long; transactions := detail |}.


End TaxReport.

(* ====================================================================== *)
(** ** [tax_reporter.TaxReporter] *)


(* ====================================================================== *)
(** ** [portfolio.Portfolio] *)

Module Portfolio.

(** The portfolio object: [self.transactions] and [self.holdings].  The
    price service [self.crypto_api] is outside the model: the methods that
    call [get_current_price] take its answer as the argument [api]. *)
Record t : Type := mk {
  transactions : list Transaction;
  holdings : Dict.t Q
}.

(** [Portfolio(transactions)], on [Transaction] objects. *)
Definition init (txs : list Transaction) : t :=
  {| transactions := txs; holdings := Dict.empty |}.

(** [self.load_transactions(transactions)], on [Transaction] objects. *)
Definition load_transactions (self : t) (txs : list Transaction) : t :=
  {| transactions := txs; holdings := Dict.empty |}.

(** The body of [for tx in self.transactions:] in [calculate_holdings]. *)
Definition add_holding (tx : Transaction) (holdings : Dict.t Q)
  : M (Dict.t Q) :=
  let symbol := tx_crypto_symbol tx in
  let holdings :=
    if Dict.contains symbol holdings then holdings
    else Dict.set symbol 0%Q holdings in
  if String.eqb (tx_transaction_type tx) "buy"
     || String.eqb (tx_transaction_type tx) "transfer_in" then
    held <- getitem symbol holdings ;;
    ret (Dict.set symbol (held + tx_quantity tx)%Q holdings)
  else if String.eqb (tx_transaction_type tx) "sell"
          || String.eqb (tx_transaction_type tx) "transfer_out" then
    held <- getitem symbol holdings ;;
    ret (Dict.set symbol (held - tx_quantity tx)%Q holdings)
  else ret holdings.

(** [{k: v for k, v in items}] *)
Definition dict_of_items {V : Type} (items : list (string * V)) : Dict.t V :=
  fold_left (fun d (item : string * V) => Dict.set (fst item) (snd item) d)
    items Dict.empty.

(** [self.calculate_holdings()] *)
Definition calculate_holdings (self : t) : M (Dict.t Q * t) :=
  holdings <- for_each (transactions self) add_holding Dict.empty ;;
  let kept :=
    dict_of_items
      (filter (fun item : string * Q => Qlt_bool 0 (snd item))
         (Dict.items holdings)) in
  ret (kept, {| transactions := transactions self; holdings := kept |}).

(** [not d], for a dictionary. *)
Definition is_empty {V : Type} (d : Dict.t V) : bool :=
  match d with [] => true | _ :: _ => false end.

(** The loop of [get_portfolio_items] over [self.holdings.items()]. *)
Definition items_of (holdings prices : Dict.t Q) (fiat_currency : string)
  : list PortfolioItem.t :=
  fold_left
    (fun items (item : string * Q) =>
       let (symbol, quantity) := item in
       if Qlt_bool 0 quantity then
         items ++ [PortfolioItem.new symbol quantity
                     (Dict.get symbol prices) fiat_currency]
       else items)
    (Dict.items holdings) [].

(** [self.get_portfolio_items(fiat_currency)]; [api symbols fiat_currency]
    is what [self.crypto_api.get_current_price] answers. *)
Definition get_portfolio_items (api : list string -> string -> Dict.t Q)
    (self : t) (fiat_currency : string) : M (list PortfolioItem.t * t) :=
  self <- (if is_empty (holdings self)
           then r <- calculate_holdings self ;; ret (snd r)
           else ret self) ;;
  let symbols := Dict.keys (holdings self) in
  let prices := api symbols fiat_currency in
  ret (items_of (holdings self) prices fiat_currency, self).

(** The dictionary returned by [get_portfolio_value]. *)
Record value : Type := mkValue {
  total_value : Q;
  value_fiat_currency : string;
  items : list PortfolioItem.dict
}.

(** [item.current_value or 0] *)
Definition value_or_0 (item : PortfolioItem.t) : Q :=
  match PortfolioItem.current_value item with
  | Some v => if Qeq_bool v 0 then 0%Q else v
  | None => 0%Q
  end.

(** [self.get_portfolio_value(fiat_currency)] *)
Definition get_portfolio_value (api : list string -> string -> Dict.t Q)
    (self : t) (fiat_currency : string) : M (value * t) :=
  r <- get_portfolio_items api self fiat_currency ;;
  let (its, self) := r in
  let total := py_sum (map value_or_0 its) in
  ret ({| total_value := total; value_fiat_currency := fiat_currency;
          items := map PortfolioItem.to_dict its |}, self).







End Portfolio.

(* ====================================================================== *)
(** ** Vocabulary of the portfolio properties *)

(** Net quantity of a symbol in a ledger: what came in less what went
    out. *)
Definition net (sym : string) (txs : list Transaction) : Q :=
  (acquired sym txs - disposed sym txs)%Q.

(** The number a dictionary has for a key, 0 for a key it has not. *)
Definition amount (sym : string) (d : Dict.t Q) : Q :=
  match Dict.get sym d with Some q => q | None => 0%Q end.

(** The holdings that [get_portfolio_items] lists: those of a positive
    quantity. *)
Definition listed (holdings : Dict.t Q) : list (string * Q) :=
  filter (fun item : string * Q => Qlt_bool 0 (snd item))
    (Dict.items holdings).

(** Value of a holding at the prices [prices]: 0 without a price. *)
Definition worth (prices : Dict.t Q) (item : string * Q) : Q :=
  match Dict.get (fst item) prices with
  | Some price => (snd item * price)%Q
  | None => 0%Q
  end.

(** The values that [get_portfolio_distribution] keeps: those of the items
    that have a value other than 0. *)
Definition valued (items : list PortfolioItem.dict) : list (string * Q) :=
  flat_map (fun item =>
              match PortfolioItem.dict_current_value item with
              | Some v =>
                  if Qeq_bool v 0 then []
                  else [(PortfolioItem.dict_crypto_symbol item, v)]
              | None => []
              end) items.

(* ====================================================================== *)
(** * Properties *)

(* ====================================================================== *)
(** ** Rational comparisons used by the source *)

Lemma Qlt_bool_iff (a b : Q) : Qlt_bool a b = true <-> (a < b)%Q.
Proof.
  unfold Qlt_bool. rewrite negb_true_iff.
  split.
  - intros H. apply Qnot_le_lt. intros Hle.
    apply Qle_bool_iff in Hle. congruence.
  - intros H. destruct (Qle_bool b a) eqn:E; [|reflexivity].
    apply Qle_bool_iff in E. exfalso. apply (Qlt_not_le _ _ H E).
Qed.

Lemma Qlt_bool_false_iff (a b : Q) : Qlt_bool a b = false <-> (b <= a)%Q.
Proof.
  unfold Qlt_bool. rewrite negb_false_iff. apply Qle_bool_iff.
Qed.

Lemma Qle_bool_false_iff (a b : Q) : Qle_bool a b = false <-> (b < a)%Q.
Proof.
  split.
  - intros H. apply Qnot_le_lt. intros Hle.
    apply Qle_bool_iff in Hle. congruence.
  - intros H. destruct (Qle_bool a b) eqn:E; [|reflexivity].
    apply Qle_bool_iff in E. exfalso. apply (Qlt_not_le _ _ H E).
Qed.

(* ====================================================================== *)
(** ** Dictionaries and heap: basic facts *)

Section DictFacts.
Context {V : Type}.
Implicit Types (d : Dict.t V) (k : string) (v : V).

Lemma get_set_same k v d : Dict.get k (Dict.set k v d) = Some v.
Proof.
  induction d as [|[k' v'] d IH]; simpl.
  - now rewrite String.eqb_refl.
  - destruct (String.eqb k k') eqn:E; simpl; rewrite ?E; auto.
    now rewrite String.eqb_refl.
Qed.

Lemma get_set_other k k' v d :
  k' <> k -> Dict.get k' (Dict.set k v d) = Dict.get k' d.
Proof.
  intros Hne.
  induction d as [|[k2 v2] d IH]; simpl.
  - apply String.eqb_neq in Hne. now rewrite Hne.
  - destruct (String.eqb k k2) eqn:E; simpl.
    + apply String.eqb_eq in E. subst k2.
      apply String.eqb_neq in Hne. now rewrite Hne.
    + now rewrite IH.
Qed.

Lemma contains_get k d :
  Dict.contains k d = true <-> exists v, Dict.get k d = Some v.
Proof.
  unfold Dict.contains. destruct (Dict.get k d).
  - split; eauto.
  - split; [discriminate | intros [v Hv]; discriminate].
Qed.

Lemma get_in_keys k d v : Dict.get k d = Some v -> In k (Dict.keys d).
Proof.
  induction d as [|[k' v'] d IH]; simpl; [discriminate|].
  destruct (String.eqb k k') eqn:E.
  - apply String.eqb_eq in E. auto.
  - auto.
Qed.

Lemma get_none_keys k d : Dict.get k d = None -> ~ In k (Dict.keys d).
Proof.
  induction d as [|[k' v'] d IH]; simpl; [tauto|].
  destruct (String.eqb k k') eqn:E; [discriminate|].
  apply String.eqb_neq in E. intros H [H1|H1]; [congruence | now apply IH].
Qed.

(** A new key goes to the end. *)
Lemma set_fresh k v d : Dict.get k d = None -> Dict.set k v d = d ++ [(k, v)].
Proof.
  induction d as [|[k' v'] d IH]; simpl; [reflexivity|].
  destruct (String.eqb k k'); [discriminate|].
  intros H. now rewrite IH.
Qed.

(** An existing key keeps its place: the keys do not change. *)
Lemma keys_set_present k v d :
  Dict.contains k d = true -> Dict.keys (Dict.set k v d) = Dict.keys d.
Proof.
  unfold Dict.contains.
  induction d as [|[k' v'] d IH]; simpl; [discriminate|].
  destruct (String.eqb k k') eqn:E; simpl.
  - apply String.eqb_eq in E. now subst.
  - intros H. now rewrite IH.
Qed.

Lemma keys_set_fresh k v d :
  Dict.get k d = None -> Dict.keys (Dict.set k v d) = Dict.keys d ++ [k].
Proof.
  intros H. rewrite set_fresh by assumption.
  unfold Dict.keys. now rewrite map_app.
Qed.
End DictFacts.

Lemma get_ensure {V : Type} (k : string) (d : Dict.t (list V)) :
  Dict.get k (ensure k d) = Some (entry k d).
Proof.
  unfold ensure, entry, Dict.contains.
  destruct (Dict.get k d) eqn:E; [assumption | apply get_set_same].
Qed.

Lemma entry_ensure {V : Type} (k k' : string) (d : Dict.t (list V)) :
  entry k' (ensure k d) = entry k' d.
Proof.
  unfold entry at 1. destruct (String.eqb k' k) eqn:E.
  - apply String.eqb_eq in E. subst. now rewrite get_ensure.
  - apply String.eqb_neq in E. unfold ensure.
    destruct (Dict.contains k d); [reflexivity|].
    now rewrite get_set_other.
Qed.

Lemma entry_set_same {V : Type} (k : string) (l : list V) d :
  entry k (Dict.set k l d) = l.
Proof. unfold entry. now rewrite get_set_same. Qed.

Lemma entry_set_other {V : Type} (k k' : string) (l : list V) d :
  k' <> k -> entry k' (Dict.set k l d) = entry k' d.
Proof. intros H. unfold entry. now rewrite get_set_other. Qed.

Section HeapFacts.
Context {A : Type}.
Implicit Types (h : list A) (a : nat).

Lemma nth_update_same a x h d :
  (a < List.length h)%nat -> nth a (update a x h) d = x.
Proof.
  revert a. induction h as [|y h IH]; intros [|a] Hlt; simpl in *;
    try lia; auto.
  apply IH. lia.
Qed.

Lemma update_update a x y h : update a x (update a y h) = update a x h.
Proof.
  revert a. induction h as [|z h IH]; intros [|a]; simpl; auto.
  now rewrite IH.
Qed.

Lemma update_nth a h d : update a (nth a h d) h = h.
Proof.
  revert a. induction h as [|z h IH]; intros [|a]; simpl; auto.
  now rewrite IH.
Qed.

Lemma length_update a x h : List.length (update a x h) = List.length h.
Proof.
  revert a. induction h as [|z h IH]; intros [|a]; simpl; auto.
Qed.

Lemma update_last x y h : update (List.length h) x (h ++ [y]) = h ++ [x].
Proof. induction h as [|z h IH]; simpl; [reflexivity | now rewrite IH]. Qed.

Lemma nth_last x h d : nth (List.length h) (h ++ [x]) d = x.
Proof. induction h as [|z h IH]; simpl; auto. Qed.

Lemma nth_before_last a x h d :
  (a < List.length h)%nat -> nth a (h ++ [x]) d = nth a h d.
Proof. intros H. now rewrite app_nth1. Qed.
End HeapFacts.

(* ====================================================================== *)
(** ** The method and the fold agree *)

Lemma process_transaction_step self tx rg w :
  (self_inventory self < List.length (heap w))%nat ->
  process_transaction self tx rg w =
    let e := step (mkEngine (nth (self_inventory self) (heap w) Dict.empty)
                            rg (stdout w)) tx in
    Ok (eng_realized e,
        mkWorld (update (self_inventory self) (eng_inventory e) (heap w))
                (eng_printed e)).
Proof.
  intros Hlt. destruct w as [h out]. simpl in *.
  set (a := self_inventory self) in *.
  set (sym := tx_crypto_symbol tx).
  set (inv := nth a h Dict.empty).
  assert (Hphase :
    bind (load a)
      (fun inventory =>
         if Dict.contains sym inventory then ret tt
         else store a (Dict.set sym [] inventory)) (mkWorld h out)
    = Ok (tt, mkWorld (update a (ensure sym inv) h) out)).
  { unfold bind, load, store, ret, ensure. simpl. fold inv.
    destruct (Dict.contains sym inv); [|reflexivity].
    unfold inv. now rewrite update_nth. }
  unfold process_transaction. fold sym. fold a.
  change (ensure sym rg) with
    (if Dict.contains sym rg then rg else Dict.set sym [] rg) in *.
  unfold bind at 1 in Hphase. unfold bind at 1.
  destruct (load a {| heap := h; stdout := out |}) as [[inv0 w0]|] eqn:El;
    [|discriminate].
  unfold bind at 1.
  rewrite Hphase. clear Hphase El.
  unfold step, sale, is_disposal, is_acquisition. fold sym.
  simpl eng_inventory. simpl eng_realized. simpl eng_printed.
  destruct (String.eqb (tx_transaction_type tx) "buy"
            || String.eqb (tx_transaction_type tx) "transfer_in") eqn:Eb.
  - unfold bind, load, getitem, store, ret. simpl.
    rewrite !nth_update_same by exact Hlt.
    rewrite get_ensure. simpl. rewrite update_update.
    rewrite entry_ensure. reflexivity.
  - destruct (String.eqb (tx_transaction_type tx) "sell"
              || String.eqb (tx_transaction_type tx) "transfer_out") eqn:Es.
    + unfold bind, load, getitem, store, ret, print. simpl.
      rewrite !nth_update_same by exact Hlt.
      rewrite get_ensure. simpl.
      change (if Dict.contains sym rg then rg else Dict.set sym [] rg)
        with (ensure sym rg).
      rewrite get_ensure. simpl.
      rewrite update_update.
      destruct (Qlt_bool 0 _); reflexivity.
    + destruct (String.eqb (tx_transaction_type tx) "exchange");
        reflexivity.
Qed.

Lemma for_each_run self txs : forall rg w,
  (self_inventory self < List.length (heap w))%nat ->
  for_each txs (process_transaction self) rg w =
    let e := run (mkEngine (nth (self_inventory self) (heap w) Dict.empty)
                           rg (stdout w)) txs in
    Ok (eng_realized e,
        mkWorld (update (self_inventory self) (eng_inventory e) (heap w))
                (eng_printed e)).
Proof.
  induction txs as [|tx txs IH]; intros rg w Hlt.
  - simpl. unfold ret. rewrite update_nth. now destruct w.
  - cbn [for_each]. unfold bind.
    rewrite process_transaction_step by assumption.
    change (run ?e (tx :: txs)) with (run (step e tx) txs).
    cbv beta iota zeta.
    destruct (step _ tx) as [i r p] eqn:Es.
    rewrite IH by (simpl; now rewrite length_update).
    simpl. rewrite nth_update_same by assumption.
    now rewrite update_update.
Qed.

(** [process_transactions] never raises; it leaves a new dictionary object
    in the heap, holding the inventory of the fold, and returns the
    realized gains of the fold. *)
Lemma process_transactions_run self w :
  process_transactions self w =
    let e := run (start (stdout w)) (self_transactions self) in
    let a := List.length (heap w) in
    Ok ({| realized_gains := eng_realized e; inventory := a |},
        {| self_transactions := self_transactions self;
           self_inventory := a |},
        {| heap := heap w ++ [eng_inventory e];
           stdout := eng_printed e |}).
Proof.
  unfold process_transactions, bind, new_dict. simpl.
  rewrite for_each_run by (simpl; rewrite length_app; simpl; lia).
  simpl. rewrite nth_last, update_last. reflexivity.
Qed.

Lemma observe_run txs w : observe txs w = Some (run (start (stdout w)) txs).
Proof.
  unfold observe. rewrite process_transactions_run. simpl.
  unfold contents. simpl. rewrite nth_last.
  now destruct (run (start (stdout w)) txs).
Qed.

Lemma run_app e txs txs' : run e (txs ++ txs') = run (run e txs) txs'.
Proof. apply fold_left_app. Qed.

Lemma run_snoc e txs tx : run e (txs ++ [tx]) = step (run e txs) tx.
Proof. now rewrite run_app. Qed.

(* ====================================================================== *)
(** ** The FIFO loop of a sale *)



Lemma fold_left_Qplus_acc (l : list Q) : forall a b : Q,
  (fold_left Qplus l (a + b) == a + fold_left Qplus l b)%Q.
Proof.
  induction l as [|x l IH]; intros a b; simpl.
  - reflexivity.
  - rewrite <- IH.
    assert (E : forall u v : Q, (u == v)%Q ->
              (fold_left Qplus l u == fold_left Qplus l v)%Q).
    { clear. induction l as [|y l IH]; intros u v Huv; simpl; [assumption|].
      apply IH. now rewrite Huv. }
    apply E. ring.
Qed.

Lemma py_sum_cons (x : Q) (l : list Q) : (py_sum (x :: l) == x + py_sum l)%Q.
Proof.
  unfold py_sum. simpl.
  rewrite <- fold_left_Qplus_acc.
  assert (E : forall u v : Q, (u == v)%Q ->
            (fold_left Qplus l u == fold_left Qplus l v)%Q).
  { clear. induction l as [|y l IH]; intros u v Huv; simpl; [assumption|].
    apply IH. now rewrite Huv. }
  apply E. ring.
Qed.





Lemma matched_cons g l : (matched (g :: l) == gain_quantity g + matched l)%Q.
Proof. unfold matched. simpl. apply py_sum_cons. Qed.


(** The gains of the loop are appended to those already there. *)
Lemma sell_loop_gains tx : forall queue remaining cost emitted,
  gains (sell_loop tx remaining cost queue emitted)
  = emitted ++ gains (sell_loop tx remaining cost queue []).
Proof.
  induction queue as [|lot rest IH]; intros remaining cost emitted; simpl.
  - now rewrite app_nil_r.
  - destruct (Qlt_bool 0 remaining); simpl; [|now rewrite app_nil_r].
    destruct (Qle_bool (buy_qty lot) remaining); simpl; [|reflexivity].
    rewrite IH. rewrite (IH _ _ [_]). now rewrite app_assoc.
Qed.

(** The queue, the remaining quantity and the emitted gains do not depend
    on the accumulators the loop only writes. *)
Lemma sell_loop_lots tx : forall queue remaining cost emitted,
  lots (sell_loop tx remaining cost queue emitted)
  = lots (sell_loop tx remaining 0 queue [])
  /\ remaining_qty (sell_loop tx remaining cost queue emitted)
     = remaining_qty (sell_loop tx remaining 0 queue []).
Proof.
  induction queue as [|lot rest IH]; intros remaining cost emitted; simpl.
  - auto.
  - destruct (Qlt_bool 0 remaining); simpl; [|auto].
    destruct (Qle_bool (buy_qty lot) remaining); simpl; [|auto].
    destruct (IH (remaining - buy_qty lot)%Q
                 (cost + buy_qty lot * buy_price lot)%Q
                 (emitted ++ [make_gain tx lot (buy_qty lot)])) as [-> ->].
    destruct (IH (remaining - buy_qty lot)%Q
                 (0 + buy_qty lot * buy_price lot)%Q
                 [make_gain tx lot (buy_qty lot)]) as [-> ->].
    auto.
Qed.


(** The shape of a FIFO match: a prefix of the queue is used entirely, lot
    after lot; then either the loop stops there, or the next lot is used in
    part and stays at the head. *)
Lemma sell_loop_shape tx : forall queue remaining cost,
  let s := sell_loop tx remaining cost queue [] in
  exists consumed rest,
    queue = consumed ++ rest
    /\ ((gains s = map (full_gain tx) consumed /\ lots s = rest)
        \/ (exists lot rest' used,
              rest = lot :: rest'
              /\ (0 < used)%Q /\ (used < buy_qty lot)%Q
              /\ gains s = map (full_gain tx) consumed ++ [make_gain tx lot used]
              /\ lots s = reduce lot used :: rest')).
Proof.
  induction queue as [|lot queue IH]; intros remaining cost; simpl.
  - exists [], []. auto.
  - destruct (Qlt_bool 0 remaining) eqn:Epos; simpl.
    + destruct (Qle_bool (buy_qty lot) remaining) eqn:Ele; simpl.
      * rewrite sell_loop_gains.
        destruct (sell_loop_lots tx queue (remaining - buy_qty lot)%Q
                    (cost + buy_qty lot * buy_price lot)%Q
                    [make_gain tx lot (buy_qty lot)]) as [El _].
        destruct (sell_loop_lots tx queue (remaining - buy_qty lot)%Q
                    (cost + buy_qty lot * buy_price lot)%Q []) as [El' _].
        rewrite El, <- El'. clear El El'.
        destruct (IH (remaining - buy_qty lot)%Q
                     (cost + buy_qty lot * buy_price lot)%Q)
          as (consumed & rest & Hq & Hs).
        exists (lot :: consumed), rest. split; [simpl; congruence|].
        destruct Hs as [[Hg Hl] | (l & r' & u & Hr & Hu0 & Hu & Hg & Hl)].
        -- left. rewrite Hg, Hl. auto.
        -- right. exists l, r', u. rewrite Hg, Hl. auto.
      * exists [], (lot :: queue). split; [reflexivity|].
        right. exists lot, queue, remaining.
        apply Qlt_bool_iff in Epos. apply Qle_bool_false_iff in Ele.
        auto.
    + exists [], (lot :: queue). auto.
Qed.





(* ====================================================================== *)
(** ** One pass through the loop body *)

(** A transaction cannot be both an acquisition and a disposal. *)
Lemma acquisition_not_disposal tx :
  is_acquisition tx = true -> is_disposal tx = false.
Proof.
  unfold is_acquisition, is_disposal. intros H.
  apply orb_true_iff in H.
  destruct H as [H|H]; apply String.eqb_eq in H; rewrite H; reflexivity.
Qed.

(** The queue of each symbol after the body. *)
Lemma step_inventory e tx sym :
  entry sym (eng_inventory (step e tx)) =
    if String.eqb sym (tx_crypto_symbol tx) then
      if is_acquisition tx then entry sym (eng_inventory e) ++ [lot_of tx]
      else if is_disposal tx then lots (sale tx e)
      else entry sym (eng_inventory e)
    else entry sym (eng_inventory e).
Proof.
  unfold step.
  destruct (String.eqb sym (tx_crypto_symbol tx)) eqn:E.
  - apply String.eqb_eq in E. subst sym.
    destruct (is_acquisition tx); simpl.
    + now rewrite entry_set_same, entry_ensure.
    + destruct (is_disposal tx); simpl.
      * now rewrite entry_set_same.
      * now rewrite entry_ensure.
  - apply String.eqb_neq in E.
    destruct (is_acquisition tx); simpl.
    + now rewrite entry_set_other, entry_ensure.
    + destruct (is_disposal tx); simpl.
      * now rewrite entry_set_other, entry_ensure.
      * now rewrite entry_ensure.
Qed.

(** The realized gains of each symbol after the body. *)
Lemma step_realized e tx sym :
  entry sym (eng_realized (step e tx)) =
    if String.eqb sym (tx_crypto_symbol tx)
       && negb (is_acquisition tx) && is_disposal tx
    then gains (sale tx e)
    else entry sym (eng_realized e).
Proof.
  unfold step.
  destruct (String.eqb sym (tx_crypto_symbol tx)) eqn:E; simpl.
  - apply String.eqb_eq in E. subst sym.
    destruct (is_acquisition tx); simpl.
    + now rewrite entry_ensure.
    + destruct (is_disposal tx); simpl.
      * now rewrite entry_set_same.
      * now rewrite entry_ensure.
  - apply String.eqb_neq in E.
    destruct (is_acquisition tx); simpl.
    + now rewrite entry_ensure.
    + destruct (is_disposal tx); simpl.
      * now rewrite entry_set_other, entry_ensure.
      * now rewrite entry_ensure.
Qed.

(** The output after the body. *)
Lemma step_printed e tx :
  eng_printed (step e tx) =
    if negb (is_acquisition tx) && is_disposal tx
       && Qlt_bool 0 (remaining_qty (sale tx e))
    then eng_printed e ++ [shortfall_warning (tx_crypto_symbol tx)]
    else eng_printed e.
Proof.
  unfold step.
  destruct (is_acquisition tx); simpl; [reflexivity|].
  destruct (is_disposal tx); simpl; reflexivity.
Qed.

(** The gains of a sale extend the gains of its symbol. *)
Lemma sale_gains tx e :
  gains (sale tx e)
  = entry (tx_crypto_symbol tx) (eng_realized e)
    ++ gains (sell_loop tx (tx_quantity tx) 0
                (entry (tx_crypto_symbol tx) (eng_inventory e)) []).
Proof. unfold sale. apply sell_loop_gains. Qed.

(** Output is only appended to. *)
Lemma run_printed_extends : forall txs e,
  exists lines, eng_printed (run e txs) = eng_printed e ++ lines.
Proof.
  induction txs as [|tx txs IH]; intros e.
  - exists []. simpl. now rewrite app_nil_r.
  - destruct (IH (step e tx)) as [lines Hl].
    change (run e (tx :: txs)) with (run (step e tx) txs).
    rewrite Hl, step_printed.
    destruct (negb (is_acquisition tx) && is_disposal tx
              && Qlt_bool 0 (remaining_qty (sale tx e))).
    + rewrite <- app_assoc. eauto.
    + eauto.
Qed.

(** Realized gains of a symbol are only appended to. *)
Lemma run_realized_extends sym : forall txs e,
  exists new,
    entry sym (eng_realized (run e txs)) = entry sym (eng_realized e) ++ new.
Proof.
  induction txs as [|tx txs IH]; intros e.
  - exists []. simpl. now rewrite app_nil_r.
  - destruct (IH (step e tx)) as [new Hn].
    change (run e (tx :: txs)) with (run (step e tx) txs).
    rewrite Hn, step_realized.
    destruct (String.eqb sym (tx_crypto_symbol tx)
              && negb (is_acquisition tx) && is_disposal tx) eqn:E.
    + rewrite sale_gains.
      apply andb_true_iff in E. destruct E as [E _].
      apply andb_true_iff in E. destruct E as [E _].
      apply String.eqb_eq in E. subst sym.
      rewrite <- app_assoc. eauto.
    + eauto.
Qed.

(* ====================================================================== *)
(** ** Quantities of a symbol over a run *)

Lemma acquired_cons sym tx txs :
  (acquired sym (tx :: txs) ==
   (if String.eqb sym (tx_crypto_symbol tx) && is_acquisition tx
    then tx_quantity tx else 0) + acquired sym txs)%Q.
Proof.
  unfold acquired. simpl.
  destruct (String.eqb sym (tx_crypto_symbol tx) && is_acquisition tx); simpl.
  - apply py_sum_cons.
  - ring.
Qed.

Lemma disposed_cons sym tx txs :
  (disposed sym (tx :: txs) ==
   (if String.eqb sym (tx_crypto_symbol tx) && is_disposal tx
    then tx_quantity tx else 0) + disposed sym txs)%Q.
Proof.
  unfold disposed. simpl.
  destruct (String.eqb sym (tx_crypto_symbol tx) && is_disposal tx); simpl.
  - apply py_sum_cons.
  - ring.
Qed.










(* ====================================================================== *)
(** ** Dates: order and sorting *)

Module DatetimeFacts.
Import Datetime.

Lemma lex_compare_refl l : lex_compare l l = Eq.
Proof.
  induction l as [|x l IH]; simpl; [reflexivity|].
  now rewrite Z.compare_refl.
Qed.

Lemma lex_compare_antisym : forall a b,
  lex_compare b a = CompOpp (lex_compare a b).
Proof.
  induction a as [|x a IH]; intros [|y b]; simpl; try reflexivity.
  rewrite (Z.compare_antisym x y).
  destruct (Z.compare x y); simpl; auto.
Qed.

Lemma lex_compare_le_trans : forall a b c,
  lex_compare a b <> Gt -> lex_compare b c <> Gt -> lex_compare a c <> Gt.
Proof.
  induction a as [|x a IH]; intros [|y b] [|z c]; simpl;
    try congruence.
  destruct (Z.compare_spec x y), (Z.compare_spec y z),
           (Z.compare_spec x z);
    try congruence; try lia; subst; eauto.
Qed.

Lemma leb_refl d : leb d d = true.
Proof. unfold leb, compare. now rewrite lex_compare_refl. Qed.

Lemma leb_trans a b c : leb a b = true -> leb b c = true -> leb a c = true.
Proof.
  unfold leb, compare. intros Hab Hbc.
  assert (H : lex_compare (fields a) (fields c) <> Gt).
  { apply lex_compare_le_trans with (fields b).
    - destruct (lex_compare (fields a) (fields b)); congruence.
    - destruct (lex_compare (fields b) (fields c)); congruence. }
  destruct (lex_compare (fields a) (fields c)); congruence.
Qed.

Lemma ltb_leb a b : ltb a b = true -> leb a b = true.
Proof.
  unfold ltb, leb. destruct (compare a b); congruence.
Qed.

Lemma not_ltb_leb a b : ltb a b = false -> leb b a = true.
Proof.
  unfold ltb, leb, compare.
  rewrite (lex_compare_antisym (fields a) (fields b)).
  destruct (lex_compare (fields a) (fields b)); simpl; congruence.
Qed.
End DatetimeFacts.

Lemma Forall_insert_by_date (P : Transaction -> Prop) tx l :
  P tx -> Forall P l -> Forall P (insert_by_date tx l).
Proof.
  intros Htx Hl. induction Hl as [|y l Hy Hl IH]; simpl.
  - auto.
  - destruct (Datetime.ltb _ _); auto.
Qed.

Lemma insert_by_date_chronological tx l :
  chronological l -> chronological (insert_by_date tx l).
Proof.
  unfold chronological.
  induction 1 as [|y l Hl IH Hy]; simpl.
  - repeat constructor.
  - destruct (Datetime.ltb (tx_transaction_date tx) (tx_transaction_date y))
      eqn:E.
    + constructor; [constructor; assumption|].
      apply DatetimeFacts.ltb_leb in E.
      constructor; [exact E|].
      eapply Forall_impl; [|exact Hy].
      intros z Hz. unfold date_le in *.
      eapply DatetimeFacts.leb_trans; eassumption.
    + constructor; [assumption|].
      apply Forall_insert_by_date; [|assumption].
      now apply DatetimeFacts.not_ltb_leb.
Qed.

(** [self.transactions] is in the order of the dates after [__init__] and
    [load_transactions]. *)
Lemma sort_by_date_chronological txs : chronological (sort_by_date txs).
Proof.
  unfold sort_by_date.
  assert (H : forall acc, chronological acc ->
            chronological
              (fold_left (fun sorted tx => insert_by_date tx sorted) txs acc)).
  { induction txs as [|tx txs IH]; intros acc Hacc; simpl; [assumption|].
    apply IH. now apply insert_by_date_chronological. }
  apply H. constructor.
Qed.

Lemma StronglySorted_app_inv {A : Type} (R : A -> A -> Prop) l l' :
  StronglySorted R (l ++ l') -> StronglySorted R l'.
Proof.
  induction l as [|x l IH]; simpl; [auto|].
  intros H. inversion H; auto.
Qed.






(* ====================================================================== *)
(** ** Selling more than is held *)






(* ====================================================================== *)
(** ** Residual quantity *)




(* ====================================================================== *)
(** ** Running the engine twice *)

(** The engine reads nothing from the output: two engines with the same
    inventory and realized gains stay so, and print the same lines. *)
Lemma run_ignores_printed : forall txs e e',
  eng_inventory e = eng_inventory e' ->
  eng_realized e = eng_realized e' ->
  eng_inventory (run e txs) = eng_inventory (run e' txs)
  /\ eng_realized (run e txs) = eng_realized (run e' txs)
  /\ exists lines,
       eng_printed (run e txs) = eng_printed e ++ lines
       /\ eng_printed (run e' txs) = eng_printed e' ++ lines.
Proof.
  induction txs as [|tx txs IH]; intros e e' Hi Hr.
  - simpl. repeat split; try assumption.
    exists []. now rewrite !app_nil_r.
  - change (run e (tx :: txs)) with (run (step e tx) txs).
    change (run e' (tx :: txs)) with (run (step e' tx) txs).
    assert (Hsale : sale tx e = sale tx e') by (unfold sale; congruence).
    destruct (IH (step e tx) (step e' tx)) as (Hi' & Hr' & lines & H1 & H2).
    + unfold step. rewrite Hi, Hsale.
      destruct (is_acquisition tx); [reflexivity|].
      destruct (is_disposal tx); reflexivity.
    + unfold step. rewrite Hr, Hsale.
      destruct (is_acquisition tx); [reflexivity|].
      destruct (is_disposal tx); reflexivity.
    + repeat split; try assumption.
      rewrite H1, H2, !step_printed, Hsale.
      destruct (negb (is_acquisition tx) && is_disposal tx
                && Qlt_bool 0 (remaining_qty (sale tx e'))).
      * exists (shortfall_warning (tx_crypto_symbol tx) :: lines).
        now rewrite <- !app_assoc.
      * now exists lines.
Qed.

(** C3: running [process_transactions] twice on the same calculator
    returns the same realized gains, record for record and in the same
    order under every symbol, and the same residual inventory.  The second
    run starts from a new, empty inventory object: whatever [self.inventory]
    held does not reach it, the inventory returned by the first run is
    still what it was, and the second run prints what the first printed. *)
Theorem process_transactions_twice :
  forall (self : ProfitLossCalculator) (w : World),
    exists result1 self1 w1 result2 self2 w2,
      process_transactions self w = Ok (result1, self1, w1)
      /\ process_transactions self1 w1 = Ok (result2, self2, w2)
      /\ realized_gains result2 = realized_gains result1
      /\ contents (inventory result2) w2 = contents (inventory result1) w1
      /\ contents (inventory result1) w2 = contents (inventory result1) w1
      /\ inventory result2 <> inventory result1
      /\ self_transactions self2 = self_transactions self
      /\ exists lines,
           stdout w1 = stdout w ++ lines /\ stdout w2 = stdout w1 ++ lines.
Proof.
  intros self w.
  pose proof (process_transactions_run self w) as H1. cbv zeta in H1.
  set (e1 := run (start (stdout w)) (self_transactions self)) in *.
  set (self1 := {| self_transactions := self_transactions self;
                   self_inventory := List.length (heap w) |}) in *.
  set (w1 := {| heap := heap w ++ [eng_inventory e1];
                stdout := eng_printed e1 |}) in *.
  pose proof (process_transactions_run self1 w1) as H2. cbv zeta in H2.
  simpl in H2.
  set (e2 := run (start (eng_printed e1)) (self_transactions self)) in *.
  destruct (run_ignores_printed (self_transactions self)
              (start (stdout w)) (start (eng_printed e1))
              eq_refl eq_refl) as (Hi & Hr & lines & Hl1 & Hl2).
  fold e1 in Hi, Hr, Hl1. fold e2 in Hi, Hr, Hl2. simpl in Hl1, Hl2.
  do 6 eexists.
  split; [exact H1|]. split; [exact H2|].
  unfold contents. simpl.
  rewrite length_app. simpl.
  repeat split.
  - now symmetry.
  - rewrite (app_nth2 (heap w ++ [eng_inventory e1])) by
      (rewrite length_app; simpl; lia).
    rewrite length_app. simpl.
    replace (List.length (heap w) + 1 - (List.length (heap w) + 1))%nat
      with 0%nat by lia.
    simpl. rewrite nth_last. now symmetry.
  - rewrite app_nth1 by (rewrite length_app; simpl; lia). reflexivity.
  - lia.
  - exists lines. split; assumption.
Qed.

(* ====================================================================== *)
(** ** FIFO order *)


(** [load_transactions] leaves the transactions sorted by date. *)
Lemma load_transactions_sorted self0 txs w0 self w :
  load_transactions self0 txs w0 = Ok (self, w) ->
  self_transactions self = sort_by_date txs.
Proof.
  unfold load_transactions, bind, new_dict, ret. intros H.
  injection H as <- _. reflexivity.
Qed.

(** [__init__] does what [load_transactions] does. *)
Lemma init_load_transactions self0 txs :
  init txs = load_transactions self0 txs.
Proof. reflexivity. Qed.

(** The new gains of a sale: full records for a prefix of the queue, then
    at most one record for a part of the next lot. *)
Lemma sale_shape tx e :
  let queue := entry (tx_crypto_symbol tx) (eng_inventory e) in
  exists consumed rest last,
    queue = consumed ++ rest
    /\ gains (sale tx e)
       = entry (tx_crypto_symbol tx) (eng_realized e)
         ++ map (full_gain tx) consumed ++ last
    /\ (last = []
        \/ exists lot rest' used,
             rest = lot :: rest'
             /\ (0 < used)%Q /\ (used < buy_qty lot)%Q
             /\ last = [make_gain tx lot used]).
Proof.
  intros queue. rewrite sale_gains. fold queue.
  destruct (sell_loop_shape tx queue (tx_quantity tx) 0)
    as (consumed & rest & Hq & Hs).
  destruct Hs as [[Hg _] | (lot & rest' & used & Hr & H0 & H1 & Hg & _)].
  - exists consumed, rest, []. rewrite Hg, app_nil_r. auto.
  - exists consumed, rest, [make_gain tx lot used]. rewrite Hg.
    repeat split; auto. right. exists lot, rest', used. auto.
Qed.



(* ====================================================================== *)
(** ** Frame of one pass through the loop body *)






(* ====================================================================== *)
(** ** Exchange transactions *)

Lemma step_same_books e e' tx :
  same_books e e' -> same_books (step e tx) (step e' tx).
Proof.
  intros (Hi & Hr & Hp).
  assert (Hsale : sale tx e = sale tx e') by (unfold sale; now rewrite Hi, Hr).
  repeat split.
  - intros sym. now rewrite !step_inventory, Hi, Hsale.
  - intros sym. now rewrite !step_realized, Hr, Hsale.
  - now rewrite !step_printed, Hp, Hsale.
Qed.

Lemma run_same_books : forall txs e e',
  same_books e e' -> same_books (run e txs) (run e' txs).
Proof.
  induction txs as [|tx txs IH]; intros e e' H; [exact H|].
  apply (IH (step e tx) (step e' tx)). now apply step_same_books.
Qed.

Lemma exchange_is_neither tx :
  tx_transaction_type tx = "exchange"%string ->
  is_acquisition tx = false /\ is_disposal tx = false.
Proof.
  intros H. unfold is_acquisition, is_disposal. rewrite H. auto.
Qed.

Lemma step_exchange e tx :
  tx_transaction_type tx = "exchange"%string ->
  step e tx
  = {| eng_inventory := ensure (tx_crypto_symbol tx) (eng_inventory e);
       eng_realized := ensure (tx_crypto_symbol tx) (eng_realized e);
       eng_printed := eng_printed e |}.
Proof.
  intros H. destruct (exchange_is_neither tx H) as [Ha Hd].
  unfold step. now rewrite Ha, Hd.
Qed.

(** C9: a transaction of type [exchange] records nothing.  Processing it
    emits no realized gain, appends no lot, changes no lot and prints
    nothing: its only effect is an empty entry for its symbol where there
    was none.  A run over a list that contains it ends with the gains and
    the lots, symbol by symbol, of the run over the list without it. *)
Theorem exchange_records_nothing :
  forall (pre post : list Transaction) (tx : Transaction) (w : World),
    tx_transaction_type tx = "exchange"%string ->
    exists e0 e1 e e',
      observe pre w = Some e0
      /\ observe (pre ++ [tx]) w = Some e1
      /\ observe (pre ++ tx :: post) w = Some e
      /\ observe (pre ++ post) w = Some e'
      /\ eng_realized e1 = ensure (tx_crypto_symbol tx) (eng_realized e0)
      /\ eng_inventory e1 = ensure (tx_crypto_symbol tx) (eng_inventory e0)
      /\ (forall sym,
            entry sym (eng_realized e1) = entry sym (eng_realized e0)
            /\ entry sym (eng_inventory e1) = entry sym (eng_inventory e0))
      /\ eng_printed e1 = eng_printed e0
      /\ (forall sym,
            entry sym (eng_realized e) = entry sym (eng_realized e')
            /\ entry sym (eng_inventory e) = entry sym (eng_inventory e'))
      /\ eng_printed e = eng_printed e'.
Proof.
  intros pre post tx w Hx.
  exists (run (start (stdout w)) pre),
         (run (start (stdout w)) (pre ++ [tx])),
         (run (start (stdout w)) (pre ++ tx :: post)),
         (run (start (stdout w)) (pre ++ post)).
  rewrite !observe_run.
  do 4 (split; [reflexivity|]).
  rewrite run_snoc, !run_app.
  set (e0 := run (start (stdout w)) pre).
  change (run e0 (tx :: post)) with (run (step e0 tx) post).
  rewrite (step_exchange e0 tx Hx). simpl.
  assert (Hsame : same_books
            {| eng_inventory := ensure (tx_crypto_symbol tx) (eng_inventory e0);
               eng_realized := ensure (tx_crypto_symbol tx) (eng_realized e0);
               eng_printed := eng_printed e0 |} e0).
  { repeat split; simpl; intros; apply entry_ensure. }
  destruct (run_same_books post _ _ Hsame) as (Hi & Hr & Hp).
  repeat split; auto using entry_ensure.
Qed.

(** C9 at an exchange placed between a purchase and a sale. *)
Lemma exchange_records_nothing_witness :
  tx_transaction_type Examples.idle_exchange = "exchange"%string
  /\ exists e0 e1 e e',
       observe [Examples.eth_buy] Examples.fresh_world = Some e0
       /\ observe [Examples.eth_buy; Examples.idle_exchange]
            Examples.fresh_world = Some e1
       /\ observe [Examples.eth_buy; Examples.idle_exchange;
                   Examples.eth_sell 2] Examples.fresh_world = Some e
       /\ observe [Examples.eth_buy; Examples.eth_sell 2]
            Examples.fresh_world = Some e'
       /\ (forall sym,
             entry sym (eng_realized e1) = entry sym (eng_realized e0)
             /\ entry sym (eng_inventory e1) = entry sym (eng_inventory e0))
       /\ (forall sym,
             entry sym (eng_realized e) = entry sym (eng_realized e')
             /\ entry sym (eng_inventory e) = entry sym (eng_inventory e')).
Proof.
  assert (Hx : tx_transaction_type Examples.idle_exchange = "exchange"%string)
    by reflexivity.
  split; [exact Hx|].
  destruct (exchange_records_nothing [Examples.eth_buy] [Examples.eth_sell 2]
              Examples.idle_exchange Examples.fresh_world Hx)
    as (e0 & e1 & e & e' & H0 & H1 & H & H' & _ & _ & Hstep & _ & Hrun & _).
  exists e0, e1, e, e'. repeat split; try assumption; try apply Hstep;
    try apply Hrun.
Defined.

(* ====================================================================== *)
(** ** The fields of a realized gain *)

Lemma make_gain_coherent tx lot used : coherent (make_gain tx lot used).
Proof. repeat split. Qed.

Lemma sale_coherent tx e :
  Forall coherent (entry (tx_crypto_symbol tx) (eng_realized e)) ->
  Forall coherent (gains (sale tx e)).
Proof.
  intros Hold.
  destruct (sale_shape tx e) as (consumed & rest & last & _ & -> & Hlast).
  apply Forall_app. split; [assumption|].
  apply Forall_app. split.
  - apply Forall_forall. intros g Hg. apply in_map_iff in Hg.
    destruct Hg as (lot & <- & _). apply make_gain_coherent.
  - destruct Hlast as [-> | (lot & rest' & used & _ & _ & _ & ->)].
    + constructor.
    + constructor; [apply make_gain_coherent | constructor].
Qed.

Lemma run_coherent : forall txs e,
  (forall sym, Forall coherent (entry sym (eng_realized e))) ->
  forall sym, Forall coherent (entry sym (eng_realized (run e txs))).
Proof.
  induction txs as [|tx txs IH]; intros e He; [exact He|].
  change (run e (tx :: txs)) with (run (step e tx) txs).
  apply IH. intros sym. rewrite step_realized.
  destruct (String.eqb sym (tx_crypto_symbol tx)
            && negb (is_acquisition tx) && is_disposal tx); [|apply He].
  apply sale_coherent, He.
Qed.

Lemma term_of_short hp : term_of hp = "short"%string <-> hp <= 365.
Proof.
  unfold term_of. destruct (Z.ltb_spec 365 hp); split; intros H';
    try reflexivity; try discriminate; lia.
Qed.

Lemma term_of_long hp : term_of hp = "long"%string <-> 365 < hp.
Proof.
  unfold term_of. destruct (Z.ltb_spec 365 hp); split; intros H';
    try reflexivity; try discriminate; lia.
Qed.

(** C6: in every realized gain that [process_transactions] returns, the
    holding period is the number of whole days from the buy date to the
    sell date, the term is ['short'] exactly when that number is at most
    365 and ['long'] exactly when it is greater than 365; 365 days is
    short and 366 days is long. *)
Theorem term_boundary :
  forall (self : ProfitLossCalculator) (w : World),
    exists result self' w',
      process_transactions self w = Ok (result, self', w')
      /\ (forall sym g,
            In g (entry sym (realized_gains result)) ->
            gain_holding_period_days g
            = Datetime.sub_days (gain_sell_date g) (gain_buy_date g)
            /\ (gain_term g = "short"%string
                <-> gain_holding_period_days g <= 365)
            /\ (gain_term g = "long"%string
                <-> 365 < gain_holding_period_days g))
      /\ term_of 365 = "short"%string
      /\ term_of 366 = "long"%string.
Proof.
  intros self w. rewrite process_transactions_run. cbv zeta.
  do 3 eexists. split; [reflexivity|]. simpl.
  split; [|split; reflexivity].
  intros sym g Hin.
  assert (Hc : coherent g).
  { eapply Forall_forall; [|exact Hin].
    apply run_coherent. intros s. constructor. }
  destruct Hc as (_ & _ & _ & Hhp & Hterm).
  split; [exact Hhp|]. rewrite Hterm.
  split; [apply term_of_short | apply term_of_long].
Qed.

(** C6 at a lot bought on 2022-01-01 and sold on 2023-01-01 (365 days) and
    on 2023-01-02 (366 days). *)
Lemma term_boundary_witness :
  exists result self' w' g365 g366,
    process_transactions (Examples.calculator Examples.year_ledger)
      Examples.fresh_world = Ok (result, self', w')
    /\ entry "BTC" (realized_gains result) = [g365; g366]
    /\ gain_holding_period_days g365 = 365
    /\ gain_term g365 = "short"%string
    /\ gain_holding_period_days g366 = 366
    /\ gain_term g366 = "long"%string.
Proof.
  destruct (term_boundary (Examples.calculator Examples.year_ledger)
              Examples.fresh_world)
    as (result & self' & w' & Hrun & Hall & _).
  assert (Hg : exists g365 g366,
             entry "BTC" (realized_gains result) = [g365; g366]
             /\ gain_holding_period_days g365 = 365
             /\ gain_holding_period_days g366 = 366).
  { vm_compute in Hrun. injection Hrun as <- _ _.
    do 2 eexists. repeat split. }
  destruct Hg as (g365 & g366 & Hentry & H365 & H366).
  exists result, self', w', g365, g366.
  destruct (Hall "BTC"%string g365) as (_ & Hshort & _);
    [rewrite Hentry; simpl; auto|].
  destruct (Hall "BTC"%string g366) as (_ & _ & Hlong);
    [rewrite Hentry; simpl; auto|].
  repeat split; try assumption.
  - apply Hshort. rewrite H365. discriminate.
  - apply Hlong. rewrite H366. reflexivity.
Defined.

(* ====================================================================== *)
(** ** Realized gains of a year *)







(* ====================================================================== *)
(** ** Current inventory and unrealized gains *)

Section DictKeys.
Context {V : Type}.
Implicit Types (d : Dict.t V) (k : string) (v : V).

Lemma NoDup_keys_set k v d :
  NoDup (Dict.keys d) -> NoDup (Dict.keys (Dict.set k v d)).
Proof.
  intros Hd. destruct (Dict.get k d) eqn:E.
  - rewrite keys_set_present; [assumption|].
    unfold Dict.contains. now rewrite E.
  - rewrite keys_set_fresh by assumption.
    apply NoDup_app; [assumption | repeat constructor; simpl; tauto |].
    intros x Hx [Hk|[]]. subst x. now apply (get_none_keys k d E).
Qed.

Lemma get_not_in_keys k d : ~ In k (Dict.keys d) -> Dict.get k d = None.
Proof.
  intros H. destruct (Dict.get k d) eqn:E; [|reflexivity].
  exfalso. apply H. eapply get_in_keys. eassumption.
Qed.

Lemma get_app k d d' :
  Dict.get k (d ++ d')
  = match Dict.get k d with Some v => Some v | None => Dict.get k d' end.
Proof.
  induction d as [|[k' v'] d IH]; simpl; [reflexivity|].
  destruct (String.eqb k k'); [reflexivity | apply IH].
Qed.
End DictKeys.

Lemma NoDup_keys_ensure {V : Type} (k : string) (d : Dict.t (list V)) :
  NoDup (Dict.keys d) -> NoDup (Dict.keys (ensure k d)).
Proof.
  intros H. unfold ensure.
  destruct (Dict.contains k d); [assumption | now apply NoDup_keys_set].
Qed.

(** Every symbol has one entry in the inventory. *)
Lemma run_inventory_keys : forall txs e,
  NoDup (Dict.keys (eng_inventory e)) ->
  NoDup (Dict.keys (eng_inventory (run e txs))).
Proof.
  induction txs as [|tx txs IH]; intros e He; [exact He|].
  change (run e (tx :: txs)) with (run (step e tx) txs).
  apply IH. unfold step.
  destruct (is_acquisition tx); simpl.
  - now apply NoDup_keys_set, NoDup_keys_ensure.
  - destruct (is_disposal tx); simpl.
    + now apply NoDup_keys_set, NoDup_keys_ensure.
    + now apply NoDup_keys_ensure.
Qed.

Lemma keys_summary_of inv k :
  In k (Dict.keys (summary_of inv)) -> In k (Dict.keys inv).
Proof.
  unfold Dict.keys, summary_of.
  induction inv as [|[sym queue] inv IH]; simpl; [tauto|].
  rewrite map_app, in_app_iff. intros [H|H]; [|auto].
  destruct (Qlt_bool 0 (held queue)); simpl in H; tauto.
Qed.

Lemma NoDup_keys_summary_of inv :
  NoDup (Dict.keys inv) -> NoDup (Dict.keys (summary_of inv)).
Proof.
  induction inv as [|[sym queue] inv IH]; simpl; [constructor|].
  intros H. inversion H as [|? ? Hnotin Hrest]; subst.
  unfold summary_of. simpl.
  destruct (Qlt_bool 0 (held queue)); simpl; [|now apply IH].
  constructor; [|now apply IH].
  intros Hin. apply Hnotin. now apply keys_summary_of.
Qed.

(** The loop of [get_current_inventory] never divides by zero, and builds
    the summary. *)
Lemma for_each_summarize : forall (inv : Inventory) acc w,
  NoDup (Dict.keys inv) ->
  (forall k, In k (Dict.keys inv) -> Dict.get k acc = None) ->
  for_each (Dict.items inv) summarize acc w = Ok (acc ++ summary_of inv, w).
Proof.
  induction inv as [|[sym queue] inv IH]; intros acc w Hnd Hfresh.
  - simpl. unfold ret. now rewrite app_nil_r.
  - inversion Hnd as [|? ? Hnotin Hrest]; subst.
    unfold Dict.items in *. cbn [for_each]. unfold bind.
    unfold summary_of. cbn [flat_map fst snd].
    unfold summarize at 1. fold (held queue).
    destruct (Qlt_bool 0 (held queue)) eqn:Epos.
    + unfold truediv.
      assert (Enz : Qeq_bool (held queue) 0 = false).
      { apply Qlt_bool_iff in Epos.
        destruct (Qeq_bool (held queue) 0) eqn:E; [|reflexivity].
        apply Qeq_bool_iff in E. lra. }
      rewrite Enz. unfold bind, ret.
      rewrite set_fresh by (apply Hfresh; simpl; auto).
      rewrite IH.
      * now rewrite <- app_assoc.
      * assumption.
      * intros k Hk. rewrite get_app, Hfresh by (simpl; auto).
        simpl. destruct (String.eqb k sym) eqn:E; [|reflexivity].
        apply String.eqb_eq in E. subst k. contradiction.
    + unfold ret. rewrite IH; [reflexivity | assumption |].
      intros k Hk. apply Hfresh. simpl. auto.
Qed.

(** The loop of [calculate_unrealized_gains] never raises, and builds the
    valuations and their sum. *)
Lemma for_each_value_holding prices :
  forall (summary : Dict.t Holding) acc total w,
    NoDup (Dict.keys summary) ->
    (forall k, In k (Dict.keys summary) -> Dict.get k acc = None) ->
    for_each (Dict.items summary) (value_holding prices) (acc, total) w
    = Ok ((acc ++ priced prices summary,
           unrealized_sum total (Dict.values (priced prices summary))), w).
Proof.
  induction summary as [|[sym inv] summary IH]; intros acc total w Hnd Hfresh.
  - simpl. unfold ret. now rewrite app_nil_r.
  - inversion Hnd as [|? ? Hnotin Hrest]; subst.
    unfold Dict.items in *. cbn [for_each]. unfold bind.
    unfold priced. cbn [flat_map fst snd].
    unfold value_holding at 1. unfold Dict.contains, getitem.
    destruct (Dict.get sym prices) as [price|] eqn:Eprice.
    + unfold bind, ret.
      rewrite set_fresh by (apply Hfresh; simpl; auto).
      rewrite IH.
      * unfold Dict.values. rewrite <- app_assoc. reflexivity.
      * assumption.
      * intros k Hk. rewrite get_app, Hfresh by (simpl; auto).
        simpl. destruct (String.eqb k sym) eqn:E; [|reflexivity].
        apply String.eqb_eq in E. subst k. contradiction.
    + unfold ret. rewrite IH; [reflexivity | assumption |].
      intros k Hk. apply Hfresh. simpl. auto.
Qed.

Lemma priced_absent prices summary sym :
  Dict.get sym prices = None -> Dict.get sym (priced prices summary) = None.
Proof.
  intros Habs. unfold priced.
  induction summary as [|[k inv] summary IH]; simpl; [reflexivity|].
  rewrite get_app, IH.
  destruct (Dict.get k prices) eqn:E; simpl; [|reflexivity].
  destruct (String.eqb sym k) eqn:Ek; [|reflexivity].
  apply String.eqb_eq in Ek. subst k. congruence.
Qed.

Lemma priced_empty summary : priced Dict.empty summary = Dict.empty.
Proof.
  unfold priced. induction summary as [|[k inv] summary IH]; simpl; auto.
Qed.

(** [get_current_inventory] returns the summary of the inventory of
    [process_transactions]. *)
Lemma get_current_inventory_run self w :
  get_current_inventory self w =
    let e := run (start (stdout w)) (self_transactions self) in
    let a := List.length (heap w) in
    Ok (summary_of (eng_inventory e),
        {| self_transactions := self_transactions self;
           self_inventory := a |},
        {| heap := heap w ++ [eng_inventory e];
           stdout := eng_printed e |}).
Proof.
  unfold get_current_inventory, bind.
  rewrite process_transactions_run. cbv zeta.
  unfold load. simpl. rewrite nth_last.
  rewrite for_each_summarize.
  - reflexivity.
  - apply run_inventory_keys. constructor.
  - reflexivity.
Qed.

Lemma calculate_unrealized_gains_run self prices w :
  calculate_unrealized_gains self prices w =
    let e := run (start (stdout w)) (self_transactions self) in
    let a := List.length (heap w) in
    let valued := priced prices (summary_of (eng_inventory e)) in
    Ok ({| by_symbol := valued;
           total_unrealized_gain := unrealized_sum 0 (Dict.values valued) |},
        {| self_transactions := self_transactions self;
           self_inventory := a |},
        {| heap := heap w ++ [eng_inventory e];
           stdout := eng_printed e |}).
Proof.
  unfold calculate_unrealized_gains, bind.
  rewrite get_current_inventory_run. cbv beta iota zeta.
  rewrite for_each_value_holding.
  - reflexivity.
  - apply NoDup_keys_summary_of, run_inventory_keys. constructor.
  - reflexivity.
Qed.

(** C8: [calculate_unrealized_gains] returns for every price map.  Its
    [by_symbol] holds, in the order of the inventory, the valuation of
    every symbol that is held in a positive quantity and has a price; a
    symbol without a price has no entry; [total_unrealized_gain] is the sum
    of the [unrealized_gain] of the entries; and with the empty price map
    [by_symbol] is empty and the total is 0. *)
Theorem unrealized_gains_skip_unpriced :
  forall (self : ProfitLossCalculator) (current_prices : Dict.t Q)
         (w : World),
    exists report result self' w' report0 self0 w0,
      calculate_unrealized_gains self current_prices w
      = Ok (report, self', w')
      /\ process_transactions self w = Ok (result, self', w')
      /\ by_symbol report
         = priced current_prices (summary_of (contents (inventory result) w'))
      /\ (forall sym,
            Dict.get sym current_prices = None ->
            Dict.get sym (by_symbol report) = None)
      /\ total_unrealized_gain report
         = unrealized_sum 0 (Dict.values (by_symbol report))
      /\ calculate_unrealized_gains self Dict.empty w
         = Ok (report0, self0, w0)
      /\ by_symbol report0 = Dict.empty
      /\ total_unrealized_gain report0 = 0%Q.
Proof.
  intros self prices w.
  rewrite !calculate_unrealized_gains_run, process_transactions_run.
  cbv zeta. do 7 eexists.
  split; [reflexivity|]. split; [reflexivity|].
  unfold contents. simpl. rewrite nth_last.
  split; [reflexivity|].
  split; [intros sym Habs; now apply priced_absent|].
  split; [reflexivity|].
  split; [reflexivity|].
  simpl. rewrite priced_empty. split; reflexivity.
Qed.

(** C8 at the BTC ledger with a price for ETH only: BTC is held, has no
    price and has no entry. *)
Lemma unrealized_gains_skip_unpriced_witness :
  Dict.get "BTC" [("ETH"%string, 2000%Q)] = None
  /\ exists report self' w',
       calculate_unrealized_gains (Examples.calculator Examples.btc_ledger)
         [("ETH"%string, 2000%Q)] Examples.fresh_world
       = Ok (report, self', w')
       /\ Dict.get "BTC" (by_symbol report) = None.
Proof.
  assert (Habs : Dict.get "BTC" [("ETH"%string, 2000%Q)] = None)
    by reflexivity.
  split; [exact Habs|].
  destruct (unrealized_gains_skip_unpriced
              (Examples.calculator Examples.btc_ledger)
              [("ETH"%string, 2000%Q)] Examples.fresh_world)
    as (report & result & self' & w' & _ & _ & _ & Hrun & _ & _ & Hskip & _).
  exists report, self', w'. split; [exact Hrun|].
  apply Hskip. exact Habs.
Defined.

(* ====================================================================== *)
(** ** Fees *)









(* ====================================================================== *)
(** ** Accounting identities of the engine *)




Lemma py_sum_map_cons {A : Type} (f : A -> Q) (x : A) (l : list A) :
  (py_sum (map f (x :: l)) == f x + py_sum (map f l))%Q.
Proof. simpl. apply py_sum_cons. Qed.















(* ====================================================================== *)
(** ** Where lots and gains come from *)

(** The lots a sale leaves are lots of the queue, entire or reduced. *)
Lemma sale_lots_origin tx e lot :
  In lot (lots (sale tx e)) ->
  exists lot0,
    In lot0 (entry (tx_crypto_symbol tx) (eng_inventory e))
    /\ buy_price lot = buy_price lot0
    /\ buy_date lot = buy_date lot0
    /\ buy_id lot = buy_id lot0
    /\ (buy_qty lot <= buy_qty lot0)%Q
    /\ ((0 < buy_qty lot0)%Q -> (0 < buy_qty lot)%Q).
Proof.
  unfold sale.
  set (queue := entry (tx_crypto_symbol tx) (eng_inventory e)).
  destruct (sell_loop_lots tx queue (tx_quantity tx) 0
              (entry (tx_crypto_symbol tx) (eng_realized e))) as [-> _].
  destruct (sell_loop_shape tx queue (tx_quantity tx) 0)
    as (consumed & rest & Hq & Hs).
  intros Hin.
  destruct Hs as [[_ Hl] | (l & r' & u & Hr & Hu0 & Hu & _ & Hl)];
    rewrite Hl in Hin.
  - exists lot. rewrite Hq. repeat split; auto.
    + apply in_or_app. now right.
    + apply Qle_refl.
  - destruct Hin as [<- | Hin].
    + exists l. rewrite Hq, Hr. repeat split; simpl.
      * apply in_or_app. right. now left.
      * lra.
      * intros _. lra.
    + exists lot. rewrite Hq, Hr. repeat split; auto.
      * apply in_or_app. right. now right.
      * apply Qle_refl.
Qed.

(** The gains a sale emits are records of lots of the queue. *)
Lemma sale_gains_origin tx e g :
  In g (gains (sale tx e)) ->
  In g (entry (tx_crypto_symbol tx) (eng_realized e))
  \/ exists lot0,
       In lot0 (entry (tx_crypto_symbol tx) (eng_inventory e))
       /\ g = make_gain tx lot0 (gain_quantity g)
       /\ (gain_quantity g <= buy_qty lot0)%Q
       /\ ((0 < buy_qty lot0)%Q -> (0 < gain_quantity g)%Q).
Proof.
  rewrite sale_gains.
  set (queue := entry (tx_crypto_symbol tx) (eng_inventory e)).
  destruct (sell_loop_shape tx queue (tx_quantity tx) 0)
    as (consumed & rest & Hq & Hs).
  intros Hin. apply in_app_or in Hin. destruct Hin as [Hin|Hin]; [now left|].
  right.
  assert (Hfull : forall g, In g (map (full_gain tx) consumed) ->
            exists lot0, In lot0 queue
              /\ g = make_gain tx lot0 (gain_quantity g)
              /\ (gain_quantity g <= buy_qty lot0)%Q
              /\ ((0 < buy_qty lot0)%Q -> (0 < gain_quantity g)%Q)).
  { intros g' Hg'. apply in_map_iff in Hg'. destruct Hg' as (l & <- & Hl).
    exists l. rewrite Hq. repeat split; simpl; auto.
    - apply in_or_app. now left.
    - apply Qle_refl. }
  destruct Hs as [[Hg _] | (l & r' & u & Hr & Hu0 & Hu & Hg & _)];
    rewrite Hg in Hin.
  - now apply Hfull.
  - apply in_app_or in Hin. destruct Hin as [Hin | [<- | []]].
    + now apply Hfull.
    + exists l. rewrite Hq, Hr. repeat split; simpl.
      * apply in_or_app. right. now left.
      * lra.
      * intros _. exact Hu0.
Qed.

Lemma lot_from_snoc txs tx sym lot :
  lot_from txs sym lot -> lot_from (txs ++ [tx]) sym lot.
Proof.
  intros (pre & buy & post & -> & H).
  exists pre, buy, (post ++ [tx]). split; [|exact H].
  now rewrite <- app_assoc.
Qed.

Lemma gain_from_snoc txs tx sym g :
  gain_from txs sym g -> gain_from (txs ++ [tx]) sym g.
Proof.
  intros (pre & buy & mid & sell & post & -> & H).
  exists pre, buy, mid, sell, (post ++ [tx]). split; [|exact H].
  rewrite <- app_assoc. simpl. now rewrite <- app_assoc.
Qed.

Lemma run_origins : forall txs out,
  (forall sym lot,
     In lot (entry sym (eng_inventory (run (start out) txs))) ->
     lot_from txs sym lot)
  /\ (forall sym g,
        In g (entry sym (eng_realized (run (start out) txs))) ->
        gain_from txs sym g).
Proof.
  induction txs as [|tx txs IH] using rev_ind; intros out.
  - split; intros sym x Hin; simpl in Hin; contradiction.
  - destruct (IH out) as [IHl IHg]. rewrite run_snoc.
    set (e := run (start out) txs) in *.
    split.
    + intros sym lot. rewrite step_inventory.
      destruct (String.eqb sym (tx_crypto_symbol tx)) eqn:E;
        [|intros H; now apply lot_from_snoc, IHl].
      apply String.eqb_eq in E. subst sym.
      destruct (is_acquisition tx) eqn:Ea.
      * intros Hin. apply in_app_or in Hin.
        destruct Hin as [Hin | [<- | []]];
          [now apply lot_from_snoc, IHl|].
        exists txs, tx, []. repeat split; auto. apply Qle_refl.
      * destruct (is_disposal tx);
          [|intros H; now apply lot_from_snoc, IHl].
        intros Hin. apply sale_lots_origin in Hin.
        destruct Hin as (lot0 & Hin0 & Hp & Hd & Hi & Hle & Hpos).
        apply lot_from_snoc.
        destruct (IHl _ _ Hin0)
          as (pre & buy & post & Ht & Hacq & Hs & Hp0 & Hd0 & Hi0 & Hle0 & Hpos0).
        exists pre, buy, post. repeat split; try congruence.
        -- eapply Qle_trans; eassumption.
        -- auto.
    + intros sym g. rewrite step_realized.
      destruct (String.eqb sym (tx_crypto_symbol tx)
                && negb (is_acquisition tx) && is_disposal tx) eqn:E;
        [|intros H; now apply gain_from_snoc, IHg].
      apply andb_true_iff in E. destruct E as [E Hdisp].
      apply andb_true_iff in E. destruct E as [E _].
      apply String.eqb_eq in E. subst sym.
      intros Hin. apply sale_gains_origin in Hin.
      destruct Hin as [Hin | (lot0 & Hin0 & Hg & Hle & Hpos)];
        [now apply gain_from_snoc, IHg|].
      destruct (IHl _ _ Hin0)
        as (pre & buy & post & Ht & Hacq & Hs & Hp0 & Hd0 & Hi0 & Hle0 & Hpos0).
      exists pre, buy, post, tx, []. repeat split; auto.
      * rewrite Ht. now rewrite <- app_assoc.
      * rewrite Hg at 1. unfold make_gain, lot_of. simpl.
        now rewrite Hp0, Hd0, Hi0.
      * eapply Qle_trans; eassumption.
Qed.

(** X3: nothing is invented.  Every realized gain that
    [process_transactions] returns pairs a [buy] or [transfer_in] of the
    ledger with a [sell] or [transfer_out] of the same symbol that comes
    later in the ledger: it carries their dates, prices and ids, and a
    quantity that is at most the quantity bought (and positive when that
    is).  Every lot left in the inventory has the price, the date and the
    id of an acquisition of its symbol, and at most its quantity. *)
Theorem gains_and_lots_come_from_the_ledger :
  forall (txs : list Transaction) (w : World),
    exists e,
      observe txs w = Some e
      /\ (forall sym g,
            In g (entry sym (eng_realized e)) -> gain_from txs sym g)
      /\ (forall sym lot,
            In lot (entry sym (eng_inventory e)) -> lot_from txs sym lot).
Proof.
  intros txs w. exists (run (start (stdout w)) txs).
  split; [apply observe_run|].
  destruct (run_origins txs (stdout w)) as [Hl Hg]. auto.
Qed.

(** X3 at the BTC ledger: the lot left is what remains of the second
    purchase. *)
Lemma gains_and_lots_come_from_the_ledger_witness :
  exists e lot,
    observe Examples.btc_ledger Examples.fresh_world = Some e
    /\ In lot (entry "BTC" (eng_inventory e))
    /\ lot_from Examples.btc_ledger "BTC" lot.
Proof.
  destruct (gains_and_lots_come_from_the_ledger
              Examples.btc_ledger Examples.fresh_world)
    as (e & Ho & _ & Hl).
  assert (Hin : exists lot, In lot (entry "BTC" (eng_inventory e))).
  { vm_compute in Ho. injection Ho as <-. eexists. left. reflexivity. }
  destruct Hin as [lot Hin].
  exists e, lot. repeat split; auto.
Defined.

(* ====================================================================== *)
(** ** Later transactions and other symbols *)

(** X4: realized gains are append-only.  Processing a ledger extended by
    further transactions returns, under every symbol, the gains of the
    shorter ledger followed by new ones, and prints the output of the
    shorter run followed by new lines: what was realized is never revised
    by what comes later. *)
Theorem later_transactions_keep_earlier_gains :
  forall (pre post : list Transaction) (w : World),
    exists e0 e,
      observe pre w = Some e0
      /\ observe (pre ++ post) w = Some e
      /\ (forall sym,
            exists new,
              entry sym (eng_realized e)
              = entry sym (eng_realized e0) ++ new)
      /\ exists lines, eng_printed e = eng_printed e0 ++ lines.
Proof.
  intros pre post w.
  exists (run (start (stdout w)) pre), (run (start (stdout w)) (pre ++ post)).
  rewrite !observe_run, run_app.
  split; [reflexivity|]. split; [reflexivity|]. split.
  - intros sym. apply run_realized_extends.
  - apply run_printed_extends.
Qed.

(** Two engines with the same queue and the same gains under one symbol. *)
Lemma step_same_symbol sym e e' tx :
  entry sym (eng_inventory e) = entry sym (eng_inventory e') ->
  entry sym (eng_realized e) = entry sym (eng_realized e') ->
  String.eqb sym (tx_crypto_symbol tx) = true ->
  entry sym (eng_inventory (step e tx)) = entry sym (eng_inventory (step e' tx))
  /\ entry sym (eng_realized (step e tx)) = entry sym (eng_realized (step e' tx)).
Proof.
  intros Hi Hr E. rewrite !step_inventory, !step_realized, E.
  apply String.eqb_eq in E. subst sym.
  assert (Hsale : sale tx e = sale tx e') by (unfold sale; now rewrite Hi, Hr).
  rewrite Hi, Hr, Hsale. auto.
Qed.

Lemma step_other_symbol sym e tx :
  String.eqb sym (tx_crypto_symbol tx) = false ->
  entry sym (eng_inventory (step e tx)) = entry sym (eng_inventory e)
  /\ entry sym (eng_realized (step e tx)) = entry sym (eng_realized e).
Proof.
  intros E. now rewrite step_inventory, step_realized, E.
Qed.

Lemma run_filter_symbol sym : forall txs e e',
  entry sym (eng_inventory e) = entry sym (eng_inventory e') ->
  entry sym (eng_realized e) = entry sym (eng_realized e') ->
  let own := filter (fun tx => String.eqb sym (tx_crypto_symbol tx)) txs in
  entry sym (eng_inventory (run e txs)) = entry sym (eng_inventory (run e' own))
  /\ entry sym (eng_realized (run e txs)) = entry sym (eng_realized (run e' own)).
Proof.
  induction txs as [|tx txs IH]; intros e e' Hi Hr; [simpl; auto|].
  cbv zeta. simpl filter.
  change (run e (tx :: txs)) with (run (step e tx) txs).
  destruct (String.eqb sym (tx_crypto_symbol tx)) eqn:E.
  - change (run e' (tx :: filter _ txs))
      with (run (step e' tx)
              (filter (fun tx => String.eqb sym (tx_crypto_symbol tx)) txs)).
    destruct (step_same_symbol sym e e' tx Hi Hr E) as [Hi' Hr'].
    now apply IH.
  - destruct (step_other_symbol sym e tx E) as [Hi' Hr'].
    apply IH; congruence.
Qed.

(** X5: symbols do not interact.  The queue and the realized gains of a
    symbol after [process_transactions] are those of a run over the
    transactions of that symbol alone: the transactions of the other
    symbols change nothing for it. *)
Theorem symbols_are_independent :
  forall (txs : list Transaction) (sym : string) (w : World),
    exists e own,
      observe txs w = Some e
      /\ observe (filter (fun tx => String.eqb sym (tx_crypto_symbol tx)) txs)
           w = Some own
      /\ entry sym (eng_inventory e) = entry sym (eng_inventory own)
      /\ entry sym (eng_realized e) = entry sym (eng_realized own).
Proof.
  intros txs sym w.
  exists (run (start (stdout w)) txs),
         (run (start (stdout w))
            (filter (fun tx => String.eqb sym (tx_crypto_symbol tx)) txs)).
  rewrite !observe_run.
  split; [reflexivity|]. split; [reflexivity|].
  apply run_filter_symbol; reflexivity.
Qed.

(* ====================================================================== *)
(** ** The summary of the inventory and its valuation *)

(** Looking a key up in a dictionary built entry by entry from another. *)
Lemma get_flat_map {V W : Type} (f : string -> V -> option W)
    (g : string * V -> list (string * W)) (k : string) :
  (forall item,
     g item = match f (fst item) (snd item) with
              | Some x => [(fst item, x)]
              | None => []
              end) ->
  forall d : Dict.t V,
    NoDup (Dict.keys d) ->
    Dict.get k (flat_map g d)
    = match Dict.get k d with
      | Some v => f k v
      | None => None
      end.
Proof.
  intros Hg.
  induction d as [|[k' v] d IH]; intros Hnd; simpl; [reflexivity|].
  inversion Hnd as [|? ? Hnotin Hrest]; subst.
  rewrite get_app, (IH Hrest), Hg. simpl.
  destruct (String.eqb k k') eqn:E.
  - apply String.eqb_eq in E. subst k'.
    rewrite (get_not_in_keys k d Hnotin).
    destruct (f k v); simpl; [now rewrite String.eqb_refl | reflexivity].
  - destruct (f k' v); simpl; [now rewrite E | reflexivity].
Qed.

Lemma get_summary_of (inv : Inventory) sym :
  NoDup (Dict.keys inv) ->
  Dict.get sym (summary_of inv)
  = if Qlt_bool 0 (held (entry sym inv))
    then Some (holding_of (entry sym inv)) else None.
Proof.
  intros Hnd. unfold summary_of.
  rewrite (get_flat_map
             (fun (_ : string) queue =>
                if Qlt_bool 0 (held queue)
                then Some (holding_of queue) else None)).
  - unfold entry. destruct (Dict.get sym inv); reflexivity.
  - intros [k queue]. simpl. now destruct (Qlt_bool 0 (held queue)).
  - assumption.
Qed.


(** X6: [get_current_inventory] never raises, and its result has an entry
    for exactly the symbols whose queue holds a positive total quantity:
    the entry gives that total, the cost of the lots divided by it, and the
    lots of the queue in order; a symbol whose lots are used up has no
    entry. *)
Theorem current_inventory_lists_positive_holdings :
  forall (self : ProfitLossCalculator) (w : World),
    exists summary result self' w',
      get_current_inventory self w = Ok (summary, self', w')
      /\ process_transactions self w = Ok (result, self', w')
      /\ forall sym,
           let queue := entry sym (contents (inventory result) w') in
           Dict.get sym summary
           = if Qlt_bool 0 (held queue)
             then Some {| holding_quantity := held queue;
                          holding_average_cost :=
                            (lots_cost queue / held queue)%Q;
                          holding_lots :=
                            map (fun lot =>
                                   {| detail_quantity := buy_qty lot;
                                      detail_price := buy_price lot;
                                      detail_date := buy_date lot;
                                      detail_transaction_id := buy_id lot |})
                                queue |}
             else None.
Proof.
  intros self w.
  rewrite get_current_inventory_run, process_transactions_run. cbv zeta.
  do 4 eexists. split; [reflexivity|]. split; [reflexivity|].
  intros sym. unfold contents. simpl. rewrite nth_last.
  apply get_summary_of.
  apply (run_inventory_keys (self_transactions self) (start (stdout w))).
  constructor.
Qed.







(* ====================================================================== *)
(** ** Holding periods *)

Lemma days_before_year_succ y :
  Datetime.days_before_year (y + 1)
  = Datetime.days_before_year y + 365
    + (if Datetime.is_leap y then 1 else 0).
Proof.
  unfold Datetime.days_before_year, Datetime.is_leap. cbv zeta.
  replace (y + 1 - 1) with y by lia.
  destruct (Z.eqb_spec (y mod 4) 0), (Z.eqb_spec (y mod 100) 0),
           (Z.eqb_spec (y mod 400) 0); simpl;
    Z.div_mod_to_equations; lia.
Qed.

Lemma days_before_year_mono y y' :
  y <= y' -> Datetime.days_before_year y <= Datetime.days_before_year y'.
Proof.
  unfold Datetime.days_before_year. cbv zeta. intros H.
  Z.div_mod_to_equations. lia.
Qed.

Ltac table_values :=
  repeat match goal with
  | |- context [nth ?n ?l 0] =>
      let v := eval vm_compute in (nth n l 0) in
      change (nth n l 0) with v
  | H : context [nth ?n ?l 0] |- _ =>
      let v := eval vm_compute in (nth n l 0) in
      change (nth n l 0) with v in H
  | |- context [if ?c then 1 else 0] =>
      let v := eval vm_compute in (if c then 1 else 0) in
      change (if c then 1 else 0) with v
  | H : context [if ?c then 1 else 0] |- _ =>
      let v := eval vm_compute in (if c then 1 else 0) in
      change (if c then 1 else 0) with v in H
  end.

(** The day of the year of a well-formed date. *)
Lemma day_of_year_bounds d :
  valid_datetime d ->
  1 <= Datetime.days_before_month (Datetime.year d) (Datetime.month d)
       + Datetime.day d
    <= 365 + (if Datetime.is_leap (Datetime.year d) then 1 else 0).
Proof.
  intros (_ & Hm & Hd & _).
  unfold days_in_month in Hd. unfold Datetime.days_before_month.
  assert (Hcases : Datetime.month d = 1 \/ Datetime.month d = 2
                   \/ Datetime.month d = 3 \/ Datetime.month d = 4
                   \/ Datetime.month d = 5 \/ Datetime.month d = 6
                   \/ Datetime.month d = 7 \/ Datetime.month d = 8
                   \/ Datetime.month d = 9 \/ Datetime.month d = 10
                   \/ Datetime.month d = 11 \/ Datetime.month d = 12)
    by lia.
  destruct (Datetime.is_leap (Datetime.year d));
    destruct Hcases as [H|[H|[H|[H|[H|[H|[H|[H|[H|[H|[H|H]]]]]]]]]]];
    rewrite H in Hd |- *; table_values; lia.
Qed.

(** Within a year, a later month or a later day is a later day of the
    year. *)
Lemma day_of_year_mono y m d m' d' :
  1 <= m <= 12 -> 1 <= m' <= 12 ->
  1 <= d <= days_in_month y m -> 1 <= d' ->
  m < m' \/ (m = m' /\ d < d') ->
  Datetime.days_before_month y m + d < Datetime.days_before_month y m' + d'.
Proof.
  intros Hm Hm' Hd Hd' Hlt.
  unfold days_in_month in Hd. unfold Datetime.days_before_month.
  assert (Hc : m = 1 \/ m = 2 \/ m = 3 \/ m = 4 \/ m = 5 \/ m = 6 \/ m = 7
               \/ m = 8 \/ m = 9 \/ m = 10 \/ m = 11 \/ m = 12) by lia.
  assert (Hc' : m' = 1 \/ m' = 2 \/ m' = 3 \/ m' = 4 \/ m' = 5 \/ m' = 6
                \/ m' = 7 \/ m' = 8 \/ m' = 9 \/ m' = 10 \/ m' = 11
                \/ m' = 12) by lia.
  destruct (Datetime.is_leap y);
    destruct Hc as [H|[H|[H|[H|[H|[H|[H|[H|[H|[H|[H|H]]]]]]]]]]];
    subst m;
    destruct Hc' as [H|[H|[H|[H|[H|[H|[H|[H|[H|[H|[H|H]]]]]]]]]]];
    subst m';
    table_values; lia.
Qed.

(** A later well-formed date has a later ordinal. *)
Lemma toordinal_lt a b :
  valid_datetime a -> valid_datetime b ->
  Datetime.year a < Datetime.year b
  \/ (Datetime.year a = Datetime.year b
      /\ (Datetime.month a < Datetime.month b
          \/ (Datetime.month a = Datetime.month b
              /\ Datetime.day a < Datetime.day b))) ->
  Datetime.toordinal a < Datetime.toordinal b.
Proof.
  intros Ha Hb Hlt. unfold Datetime.toordinal.
  pose proof (day_of_year_bounds a Ha) as Ba.
  pose proof (day_of_year_bounds b Hb) as Bb.
  destruct Hlt as [Hy | [Hy Hmd]].
  - pose proof (days_before_year_succ (Datetime.year a)) as Hs.
    pose proof (days_before_year_mono (Datetime.year a + 1)
                  (Datetime.year b)) as Hmono.
    lia.
  - rewrite Hy in *.
    destruct Ha as (_ & Hma & Hda & _). destruct Hb as (_ & Hmb & Hdb & _).
    rewrite Hy in Hda.
    pose proof (day_of_year_mono (Datetime.year b)
                  (Datetime.month a) (Datetime.day a)
                  (Datetime.month b) (Datetime.day b)) as H.
    lia.
Qed.

(** Between well-formed dates in order, the whole days are not negative. *)
Lemma sub_days_nonneg a b :
  valid_datetime a -> valid_datetime b ->
  Datetime.leb a b = true ->
  0 <= Datetime.sub_days b a.
Proof.
  intros Ha Hb Hle. unfold Datetime.sub_days.
  apply Z.div_pos; [|lia].
  unfold Datetime.leb, Datetime.compare, Datetime.fields in Hle.
  simpl in Hle.
  pose proof (toordinal_lt a b Ha Hb) as Hord.
  unfold Datetime.seconds_of_day.
  destruct Ha as (_ & _ & _ & Hha & Hmia & Hsa & Hua).
  destruct Hb as (_ & _ & _ & Hhb & Hmib & Hsb & Hub).
  destruct (Z.compare_spec (Datetime.year a) (Datetime.year b));
    [|lia|discriminate].
  destruct (Z.compare_spec (Datetime.month a) (Datetime.month b));
    [|lia|discriminate].
  destruct (Z.compare_spec (Datetime.day a) (Datetime.day b));
    [|lia|discriminate].
  assert (Heq : Datetime.toordinal a = Datetime.toordinal b)
    by (unfold Datetime.toordinal; congruence).
  rewrite Heq.
  destruct (Z.compare_spec (Datetime.hour a) (Datetime.hour b));
    [|lia|discriminate].
  destruct (Z.compare_spec (Datetime.minute a) (Datetime.minute b));
    [|lia|discriminate].
  destruct (Z.compare_spec (Datetime.second a) (Datetime.second b));
    [|lia|discriminate].
  destruct (Z.compare_spec (Datetime.microsecond a)
              (Datetime.microsecond b)); [lia|lia|discriminate].
Qed.

Lemma Forall_sort_by_date (P : Transaction -> Prop) txs :
  Forall P txs -> Forall P (sort_by_date txs).
Proof.
  unfold sort_by_date.
  assert (H : forall acc, Forall P acc -> Forall P txs ->
            Forall P (fold_left (fun sorted tx => insert_by_date tx sorted)
                        txs acc)).
  { induction txs as [|tx txs IH]; intros acc Hacc Htxs; simpl; [assumption|].
    inversion Htxs; subst.
    apply IH; [|assumption]. now apply Forall_insert_by_date. }
  intros Htxs. apply H; [constructor | assumption].
Qed.

(** In a chronological ledger, a transaction is not later than those
    behind it. *)
Lemma chronological_pair pre x mid y post :
  chronological (pre ++ x :: mid ++ y :: post) ->
  date_le (tx_transaction_date x) (tx_transaction_date y).
Proof.
  unfold chronological. intros H.
  apply StronglySorted_app_inv in H.
  inversion H as [|? ? _ Hall]; subst.
  apply Forall_app in Hall. destruct Hall as [_ Hall].
  now inversion Hall.
Qed.

(** X9: holding periods are never negative.  When the ledger was loaded
    with [load_transactions] (which sorts it by date) and its dates are
    well-formed, every realized gain has a buy date that is not later than
    its sell date and a holding period of zero or more days. *)
Theorem holding_periods_are_not_negative :
  forall (self0 self : ProfitLossCalculator) (w0 w : World)
         (txs : list Transaction),
    load_transactions self0 txs w0 = Ok (self, w) ->
    Forall (fun tx => valid_datetime (tx_transaction_date tx)) txs ->
    exists result self' w',
      process_transactions self w = Ok (result, self', w')
      /\ forall sym g,
           In g (entry sym (realized_gains result)) ->
           date_le (gain_buy_date g) (gain_sell_date g)
           /\ 0 <= gain_holding_period_days g.
Proof.
  intros self0 self w0 w txs Hload Hvalid.
  pose proof (load_transactions_sorted self0 txs w0 self w Hload) as Hs.
  rewrite process_transactions_run. cbv zeta. rewrite Hs.
  do 3 eexists. split; [reflexivity|]. simpl.
  intros sym g Hin.
  destruct (run_origins (sort_by_date txs) (stdout w)) as [_ Hg].
  destruct (Hg sym g Hin)
    as (pre & buy & mid & sell & post & Hsplit & _ & _ & _ & _ & Hrec & _).
  pose proof (sort_by_date_chronological txs) as Hc.
  pose proof (Forall_sort_by_date _ txs Hvalid) as Hv.
  rewrite Hsplit in Hc, Hv.
  pose proof (chronological_pair _ _ _ _ _ Hc) as Hle.
  apply Forall_app in Hv. destruct Hv as [_ Hv].
  inversion Hv as [|? ? Hvbuy Hv']; subst.
  apply Forall_app in Hv'. destruct Hv' as [_ Hv'].
  inversion Hv' as [|? ? Hvsell _]; subst.
  rewrite Hrec. simpl. split; [exact Hle|].
  now apply sub_days_nonneg.
Qed.

(** X9 at the BTC ledger, loaded in the reverse order of the dates. *)
Lemma holding_periods_are_not_negative_witness :
  exists self w result self' w' g,
    load_transactions (Examples.calculator []) (rev Examples.btc_ledger)
      Examples.fresh_world = Ok (self, w)
    /\ Forall (fun tx => valid_datetime (tx_transaction_date tx))
         (rev Examples.btc_ledger)
    /\ process_transactions self w = Ok (result, self', w')
    /\ In g (entry "BTC" (realized_gains result))
    /\ 0 <= gain_holding_period_days g.
Proof.
  assert (Hl : load_transactions (Examples.calculator [])
                 (rev Examples.btc_ledger) Examples.fresh_world
               = Ok ({| self_transactions := Examples.btc_ledger;
                        self_inventory := 0 |},
                     {| heap := [Dict.empty]; stdout := [] |}))
    by reflexivity.
  assert (Hv : Forall (fun tx => valid_datetime (tx_transaction_date tx))
                 (rev Examples.btc_ledger)).
  { repeat constructor; simpl; discriminate. }
  destruct (holding_periods_are_not_negative _ _ _ _ _ Hl Hv)
    as (result & self' & w' & Hrun & Hall).
  assert (Hin : exists g, In g (entry "BTC" (realized_gains result))).
  { vm_compute in Hrun. injection Hrun as <- _ _. eexists. left. reflexivity. }
  destruct Hin as [g Hin].
  do 6 eexists. split; [exact Hl|]. split; [exact Hv|].
  split; [exact Hrun|]. split; [exact Hin|].
  now apply (Hall "BTC"%string g).
Defined.

(* ====================================================================== *)
(** ** The order in which transactions are loaded *)

Lemma lex_compare_eq : forall a b,
  Datetime.lex_compare a b = Eq -> a = b.
Proof.
  induction a as [|x a IH]; intros [|y b]; simpl; try discriminate; auto.
  destruct (Z.compare_spec x y); try discriminate.
  intros Hrest. subst. f_equal. now apply IH.
Qed.

Lemma compare_eq (a b : datetime) : Datetime.compare a b = Eq -> a = b.
Proof.
  unfold Datetime.compare. intros H. apply lex_compare_eq in H.
  destruct a, b. unfold Datetime.fields in H. simpl in H.
  injection H as -> -> -> -> -> -> ->. reflexivity.
Qed.

Lemma leb_neq_ltb (a b : datetime) :
  Datetime.leb a b = true -> a <> b -> Datetime.ltb a b = true.
Proof.
  unfold Datetime.leb, Datetime.ltb. intros Hle Hne.
  destruct (Datetime.compare a b) eqn:E; try reflexivity; try discriminate.
  apply compare_eq in E. contradiction.
Qed.

Lemma ltb_asym (a b : datetime) :
  Datetime.ltb a b = true -> Datetime.ltb b a = true -> False.
Proof.
  unfold Datetime.ltb, Datetime.compare.
  rewrite (DatetimeFacts.lex_compare_antisym (Datetime.fields a)
             (Datetime.fields b)).
  destruct (Datetime.lex_compare (Datetime.fields a) (Datetime.fields b));
    simpl; discriminate.
Qed.

Lemma insert_by_date_permutation tx l :
  Permutation (insert_by_date tx l) (tx :: l).
Proof.
  induction l as [|y l IH]; simpl; [reflexivity|].
  destruct (Datetime.ltb _ _); [reflexivity|].
  rewrite IH. apply perm_swap.
Qed.

(** Sorting keeps every transaction, once. *)
Lemma sort_by_date_permutation txs : Permutation (sort_by_date txs) txs.
Proof.
  unfold sort_by_date.
  assert (H : forall acc,
            Permutation
              (fold_left (fun sorted tx => insert_by_date tx sorted) txs acc)
              (txs ++ acc)).
  { induction txs as [|tx txs IH]; intros acc; simpl; [reflexivity|].
    rewrite IH, insert_by_date_permutation.
    symmetry. apply Permutation_middle. }
  rewrite H. now rewrite app_nil_r.
Qed.

(** Two lists in strictly increasing order with the same elements are the
    same list. *)
Lemma strictly_sorted_unique {A : Type} (R : A -> A -> Prop) :
  (forall x y, R x y -> R y x -> False) ->
  forall l1 l2,
    StronglySorted R l1 -> StronglySorted R l2 -> Permutation l1 l2 ->
    l1 = l2.
Proof.
  intros Hasym.
  induction l1 as [|x l1 IH]; intros l2 H1 H2 Hp.
  - apply Permutation_nil in Hp. now subst.
  - destruct l2 as [|y l2];
      [apply Permutation_sym, Permutation_nil in Hp; discriminate|].
    inversion H1 as [|? ? H1' Hx]; subst.
    inversion H2 as [|? ? H2' Hy]; subst.
    assert (Hxy : x = y).
    { assert (Hin : In x (y :: l2))
        by (eapply Permutation_in; [exact Hp | now left]).
      destruct Hin as [Heq | Hin]; [now symmetry|].
      assert (Hin' : In y (x :: l1))
        by (eapply Permutation_in;
            [apply Permutation_sym; exact Hp | now left]).
      destruct Hin' as [Heq | Hin']; [assumption|].
      exfalso. rewrite Forall_forall in Hx, Hy.
      exact (Hasym x y (Hx y Hin') (Hy x Hin)). }
    subst y. f_equal. apply IH; try assumption.
    eapply Permutation_cons_inv. exact Hp.
Qed.

(** A chronological ledger with pairwise distinct dates is in strictly
    increasing order of date. *)
Lemma chronological_strict l :
  chronological l ->
  NoDup (map tx_transaction_date l) ->
  StronglySorted
    (fun x y => Datetime.ltb (tx_transaction_date x) (tx_transaction_date y)
                = true) l.
Proof.
  unfold chronological.
  induction 1 as [|x l Hl IH Hx]; intros Hnd; [constructor|].
  simpl in Hnd. inversion Hnd as [|? ? Hnotin Hnd']; subst.
  constructor; [now apply IH|].
  rewrite Forall_forall in Hx |- *. intros y Hy.
  apply leb_neq_ltb; [now apply Hx|].
  intros Heq. apply Hnotin. rewrite Heq. now apply in_map.
Qed.

(** X10: the order of loading does not matter.  When the dates of the
    transactions are pairwise distinct, [load_transactions] leaves the same
    calculator, whatever the order in which the transactions are given, and
    [process_transactions] then returns the same result. *)
Theorem loading_order_is_irrelevant :
  forall (self0 : ProfitLossCalculator) (txs txs' : list Transaction)
         (w0 : World),
    Permutation txs txs' ->
    NoDup (map tx_transaction_date txs) ->
    load_transactions self0 txs w0 = load_transactions self0 txs' w0
    /\ bind (load_transactions self0 txs) process_transactions w0
       = bind (load_transactions self0 txs') process_transactions w0
    /\ exists self w,
         load_transactions self0 txs w0 = Ok (self, w)
         /\ Permutation (self_transactions self) txs
         /\ chronological (self_transactions self).
Proof.
  intros self0 txs txs' w0 Hperm Hnd.
  assert (Hsort : sort_by_date txs = sort_by_date txs').
  { apply (strictly_sorted_unique
             (fun x y => Datetime.ltb (tx_transaction_date x)
                           (tx_transaction_date y) = true)).
    - intros x y. apply ltb_asym.
    - apply chronological_strict; [apply sort_by_date_chronological|].
      eapply Permutation_NoDup; [|exact Hnd].
      apply Permutation_map, Permutation_sym, sort_by_date_permutation.
    - apply chronological_strict; [apply sort_by_date_chronological|].
      eapply Permutation_NoDup; [|exact Hnd].
      apply Permutation_map.
      rewrite sort_by_date_permutation. exact Hperm.
    - rewrite !sort_by_date_permutation. exact Hperm. }
  assert (Hload : load_transactions self0 txs w0
                  = load_transactions self0 txs' w0).
  { unfold load_transactions, bind, new_dict, ret. now rewrite Hsort. }
  split; [exact Hload|]. split.
  - unfold bind. now rewrite Hload.
  - do 2 eexists. split; [reflexivity|]. simpl. split.
    + apply sort_by_date_permutation.
    + apply sort_by_date_chronological.
Qed.

(** X10 at the BTC ledger and its reverse. *)
Lemma loading_order_is_irrelevant_witness :
  Permutation Examples.btc_ledger (rev Examples.btc_ledger)
  /\ NoDup (map tx_transaction_date Examples.btc_ledger)
  /\ load_transactions (Examples.calculator []) Examples.btc_ledger
       Examples.fresh_world
     = load_transactions (Examples.calculator []) (rev Examples.btc_ledger)
         Examples.fresh_world.
Proof.
  assert (Hp : Permutation Examples.btc_ledger (rev Examples.btc_ledger))
    by apply Permutation_rev.
  assert (Hnd : NoDup (map tx_transaction_date Examples.btc_ledger)).
  { repeat constructor; simpl; intuition discriminate. }
  split; [exact Hp|]. split; [exact Hnd|].
  apply (loading_order_is_irrelevant (Examples.calculator [])
           Examples.btc_ledger (rev Examples.btc_ledger)
           Examples.fresh_world Hp Hnd).
Defined.

(* ====================================================================== *)
(** ** The portfolio *)

Lemma amount_set_same sym q d : amount sym (Dict.set sym q d) = q.
Proof. unfold amount. now rewrite get_set_same. Qed.

Lemma amount_set_other sym sym' q d :
  sym' <> sym -> amount sym' (Dict.set sym q d) = amount sym' d.
Proof. intros H. unfold amount. now rewrite get_set_other. Qed.

(** One transaction of the loop of [calculate_holdings]: no exception, no
    output, and the number of each symbol moves by the quantity. *)
Lemma add_holding_net tx h w :
  exists h',
    Portfolio.add_holding tx h w = Ok (h', w)
    /\ (NoDup (Dict.keys h) -> NoDup (Dict.keys h'))
    /\ forall sym,
         (amount sym h'
          == amount sym h
             + (if String.eqb sym (tx_crypto_symbol tx) && is_acquisition tx
                then tx_quantity tx else 0)
             - (if String.eqb sym (tx_crypto_symbol tx) && is_disposal tx
                then tx_quantity tx else 0))%Q.
Proof.
  unfold Portfolio.add_holding.
  fold (is_acquisition tx). fold (is_disposal tx).
  set (symbol := tx_crypto_symbol tx).
  set (h0 := if Dict.contains symbol h then h else Dict.set symbol 0%Q h).
  assert (Hget : Dict.get symbol h0 = Some (amount symbol h)).
  { unfold h0, Dict.contains, amount.
    destruct (Dict.get symbol h) eqn:E; [assumption | apply get_set_same]. }
  assert (Hnd : NoDup (Dict.keys h) -> NoDup (Dict.keys h0)).
  { unfold h0. destruct (Dict.contains symbol h); [auto|].
    apply NoDup_keys_set. }
  assert (Hother : forall sym, amount sym h0 = amount sym h).
  { intros sym. unfold h0, Dict.contains.
    destruct (Dict.get symbol h) eqn:E; [reflexivity|].
    destruct (String.eqb sym symbol) eqn:Es.
    - apply String.eqb_eq in Es. subst sym.
      rewrite amount_set_same. unfold amount. now rewrite E.
    - apply String.eqb_neq in Es. now apply amount_set_other. }
  clearbody h0.
  destruct (is_acquisition tx) eqn:Ea.
  - rewrite (acquisition_not_disposal tx Ea).
    unfold bind, getitem. rewrite Hget. unfold ret.
    eexists. split; [reflexivity|]. split.
    + intros H. now apply NoDup_keys_set, Hnd.
    + intros sym. destruct (String.eqb sym symbol) eqn:Es; simpl.
      * apply String.eqb_eq in Es. subst sym.
        rewrite amount_set_same. ring.
      * apply String.eqb_neq in Es.
        rewrite amount_set_other, Hother by assumption. ring.
  - destruct (is_disposal tx) eqn:Ed.
    + unfold bind, getitem. rewrite Hget. unfold ret.
      eexists. split; [reflexivity|]. split.
      * intros H. now apply NoDup_keys_set, Hnd.
      * intros sym. destruct (String.eqb sym symbol) eqn:Es; simpl.
        -- apply String.eqb_eq in Es. subst sym.
           rewrite amount_set_same. ring.
        -- apply String.eqb_neq in Es.
           rewrite amount_set_other, Hother by assumption. ring.
    + unfold ret. eexists. split; [reflexivity|]. split; [exact Hnd|].
      intros sym. rewrite Hother, !andb_false_r. ring.
Qed.

Lemma for_each_add_holding : forall txs h w,
  exists h',
    for_each txs Portfolio.add_holding h w = Ok (h', w)
    /\ (NoDup (Dict.keys h) -> NoDup (Dict.keys h'))
    /\ forall sym, (amount sym h' == amount sym h + net sym txs)%Q.
Proof.
  induction txs as [|tx txs IH]; intros h w.
  - exists h. split; [reflexivity|]. split; [auto|].
    intros sym. unfold net, acquired, disposed, py_sum. simpl. ring.
  - destruct (add_holding_net tx h w) as (h1 & Hrun & Hnd & Hnet).
    destruct (IH h1 w) as (h' & Hrun' & Hnd' & Hnet').
    exists h'. split.
    + cbn [for_each]. unfold bind. now rewrite Hrun.
    + split; [auto|]. intros sym.
      rewrite Hnet', Hnet. unfold net.
      rewrite acquired_cons, disposed_cons. ring.
Qed.

(** A list of items with distinct keys is the dictionary it builds. *)
Lemma dict_of_items_NoDup {V : Type} (l : list (string * V)) :
  NoDup (map fst l) -> Portfolio.dict_of_items l = l.
Proof.
  unfold Portfolio.dict_of_items.
  assert (G : forall (l d : list (string * V)),
            NoDup (map fst (d ++ l)) ->
            fold_left (fun d (item : string * V) =>
                         Dict.set (fst item) (snd item) d) l d = d ++ l).
  { clear. induction l as [|[k v] l IH]; intros d Hnd; simpl.
    - now rewrite app_nil_r.
    - rewrite set_fresh.
      + rewrite IH; rewrite <- app_assoc; [reflexivity | exact Hnd].
      + apply get_not_in_keys. unfold Dict.keys.
        rewrite map_app in Hnd. simpl in Hnd.
        apply NoDup_remove_2 in Hnd. intros Hin. apply Hnd.
        apply in_or_app. now left. }
  intros Hnd. apply (G l []). exact Hnd.
Qed.

Lemma NoDup_keys_filter {V : Type} (p : string * V -> bool) (d : Dict.t V) :
  NoDup (Dict.keys d) -> NoDup (Dict.keys (filter p d)).
Proof.
  unfold Dict.keys. induction d as [|[k v] d IH]; simpl; intros Hnd.
  - constructor.
  - inversion Hnd as [|? ? Hnotin Hrest]; subst.
    destruct (p (k, v)); simpl; [|auto].
    constructor; [|auto]. intros Hin. apply Hnotin.
    apply in_map_iff in Hin. destruct Hin as (x & Hx & Hin).
    apply filter_In in Hin. apply in_map_iff. exists x. tauto.
Qed.

Lemma get_filter {V : Type} (p : string * V -> bool) (k : string)
    (d : Dict.t V) :
  NoDup (Dict.keys d) ->
  Dict.get k (filter p d)
  = match Dict.get k d with
    | Some v => if p (k, v) then Some v else None
    | None => None
    end.
Proof.
  unfold Dict.keys. induction d as [|[k' v'] d IH]; simpl; intros Hnd.
  - reflexivity.
  - inversion Hnd as [|? ? Hnotin Hrest]; subst.
    destruct (String.eqb k k') eqn:E.
    + apply String.eqb_eq in E. subst k'.
      destruct (p (k, v')); simpl.
      * now rewrite String.eqb_refl.
      * apply get_not_in_keys. intros Hin. apply Hnotin.
        unfold Dict.keys in Hin.
        apply in_map_iff in Hin. destruct Hin as (x & Hx & Hin).
        apply filter_In in Hin. apply in_map_iff. exists x. tauto.
    + destruct (p (k', v')); simpl; rewrite ?E; auto.
Qed.

(** [calculate_holdings]: no exception and no output; the result, kept in
    [self.holdings], has distinct keys and gives every symbol of a positive
    net quantity that quantity. *)
Lemma calculate_holdings_net self w :
  exists h,
    Portfolio.calculate_holdings self w
    = Ok (h, {| Portfolio.transactions := Portfolio.transactions self;
                Portfolio.holdings := h |}, w)
    /\ NoDup (Dict.keys h)
    /\ Forall (fun item : string * Q => (0 < snd item)%Q) h
    /\ forall sym,
         match Dict.get sym h with
         | Some q =>
             (0 < q)%Q /\ (q == net sym (Portfolio.transactions self))%Q
         | None => (net sym (Portfolio.transactions self) <= 0)%Q
         end.
Proof.
  unfold Portfolio.calculate_holdings, bind.
  destruct (for_each_add_holding (Portfolio.transactions self) Dict.empty w)
    as (h' & Hrun & Hnd & Hnet).
  rewrite Hrun. unfold ret.
  assert (Hnd' : NoDup (Dict.keys h')) by (apply Hnd; constructor).
  unfold Dict.items.
  rewrite dict_of_items_NoDup by (apply (NoDup_keys_filter _ h' Hnd')).
  eexists. split; [reflexivity|]. split; [now apply NoDup_keys_filter|].
  split.
  { apply Forall_forall. intros item Hin. apply filter_In in Hin.
    now apply Qlt_bool_iff. }
  intros sym. rewrite get_filter by assumption.
  specialize (Hnet sym). unfold amount in Hnet. simpl in Hnet.
  destruct (Dict.get sym h') as [q|] eqn:E; simpl.
  - destruct (Qlt_bool 0 q) eqn:Eq.
    + apply Qlt_bool_iff in Eq. split; [assumption|]. rewrite Hnet. ring.
    + apply Qlt_bool_false_iff in Eq. lra.
  - lra.
Qed.








(** Sums of terms that are equal as numbers. *)
Lemma py_sum_map_equal {A : Type} (f g : A -> Q) (l : list A) :
  (forall x, In x l -> (f x == g x)%Q) ->
  (py_sum (map f l) == py_sum (map g l))%Q.
Proof.
  induction l as [|x l IH]; intros H; [reflexivity|].
  assert (Hx : (f x == g x)%Q) by (apply H; simpl; auto).
  assert (Hl : (py_sum (map f l) == py_sum (map g l))%Q)
    by (apply IH; intros y Hy; apply H; simpl; auto).
  rewrite !py_sum_map_cons, Hx, Hl. reflexivity.
Qed.

(** The loop of [get_portfolio_items] makes one item for each holding of a
    positive quantity, in the order of the dictionary. *)
Lemma items_of_listed holdings prices fiat :
  Portfolio.items_of holdings prices fiat
  = map (fun item : string * Q =>
           PortfolioItem.new (fst item) (snd item)
             (Dict.get (fst item) prices) fiat)
        (listed holdings).
Proof.
  unfold Portfolio.items_of, listed, Dict.items.
  set (make := fun item : string * Q =>
                 PortfolioItem.new (fst item) (snd item)
                   (Dict.get (fst item) prices) fiat).
  assert (G : forall acc,
            fold_left
              (fun items (item : string * Q) =>
                 let (symbol, quantity) := item in
                 if Qlt_bool 0 quantity then
                   items ++ [PortfolioItem.new symbol quantity
                               (Dict.get symbol prices) fiat]
                 else items) holdings acc
            = acc ++ map make
                       (filter (fun item : string * Q =>
                                  Qlt_bool 0 (snd item)) holdings)).
  { induction holdings as [|[symbol quantity] holdings IH]; intros acc.
    - simpl. now rewrite app_nil_r.
    - cbn [fold_left filter snd].
      destruct (Qlt_bool 0 quantity); cbn [map].
      + rewrite IH, <- app_assoc. reflexivity.
      + apply IH. }
  apply (G []).
Qed.

(** [get_portfolio_items]: no exception and no output; the holdings are
    computed when [self.holdings] is empty and used as they are
    otherwise. *)
Lemma get_portfolio_items_listed api self fiat w :
  exists self',
    Portfolio.get_portfolio_items api self fiat w
    = Ok (Portfolio.items_of (Portfolio.holdings self')
            (api (Dict.keys (Portfolio.holdings self')) fiat) fiat,
          self', w)
    /\ Portfolio.transactions self' = Portfolio.transactions self
    /\ if Portfolio.is_empty (Portfolio.holdings self)
       then Portfolio.calculate_holdings self w
            = Ok (Portfolio.holdings self', self', w)
       else self' = self.
Proof.
  unfold Portfolio.get_portfolio_items, bind.
  destruct (Portfolio.is_empty (Portfolio.holdings self)) eqn:E.
  - destruct (calculate_holdings_net self w) as (h & Hrun & _).
    rewrite Hrun. unfold ret. simpl.
    exists {| Portfolio.transactions := Portfolio.transactions self;
              Portfolio.holdings := h |}.
    split; [reflexivity|]. split; reflexivity.
  - unfold ret. exists self. split; [reflexivity|]. split; reflexivity.
Qed.

Lemma value_or_0_worth prices fiat (item : string * Q) :
  (Portfolio.value_or_0
     (PortfolioItem.new (fst item) (snd item)
        (Dict.get (fst item) prices) fiat)
   == worth prices item)%Q.
Proof.
  unfold Portfolio.value_or_0, PortfolioItem.current_value, worth. simpl.
  destruct (Dict.get (fst item) prices) as [price|]; [|reflexivity].
  destruct (Qeq_bool (snd item * price) 0) eqn:E; [|reflexivity].
  apply Qeq_bool_eq in E. now rewrite E.
Qed.

(** X13 (get_portfolio_items, get_portfolio_value, PortfolioItem): the
    value of a portfolio is the sum of quantity times price over its
    holdings.  The call raises nothing and prints nothing; it computes the
    holdings when [self.holdings] is empty and uses the cached ones
    otherwise; it lists one item for each holding of a positive quantity,
    in the order of the holdings, with the symbol in upper case; and
    ['total_value'] is the sum, over these holdings, of the quantity times
    the price answered for the symbol, a symbol without a price counting
    0. *)
Theorem portfolio_value_sums_priced_holdings :
  forall (api : list string -> string -> Dict.t Q) (self : Portfolio.t)
         (fiat : string) (w : World),
    exists v self',
      Portfolio.get_portfolio_value api self fiat w = Ok (v, self', w)
      /\ Portfolio.transactions self' = Portfolio.transactions self
      /\ (if Portfolio.is_empty (Portfolio.holdings self)
          then Portfolio.calculate_holdings self w
               = Ok (Portfolio.holdings self', self', w)
          else self' = self)
      /\ let held_now := listed (Portfolio.holdings self') in
         let prices := api (Dict.keys (Portfolio.holdings self')) fiat in
         Portfolio.value_fiat_currency v = fiat
         /\ map PortfolioItem.dict_crypto_symbol (Portfolio.items v)
            = map (fun item => upper (fst item)) held_now
         /\ map PortfolioItem.dict_quantity (Portfolio.items v)
            = map snd held_now
         /\ map PortfolioItem.dict_current_price (Portfolio.items v)
            = map (fun item => Dict.get (fst item) prices) held_now
         /\ (Portfolio.total_value v
             == py_sum (map (worth prices) held_now))%Q.
Proof.
  intros api self fiat w.
  destruct (get_portfolio_items_listed api self fiat w)
    as (self' & Hrun & Htx & Hcache).
  unfold Portfolio.get_portfolio_value, bind. rewrite Hrun. unfold ret.
  do 2 eexists. split; [reflexivity|]. split; [exact Htx|].
  split; [exact Hcache|].
  cbv zeta. simpl. rewrite items_of_listed, !map_map. simpl.
  split; [reflexivity|]. split; [reflexivity|]. split; [reflexivity|].
  split; [reflexivity|].
  apply py_sum_map_equal. intros item _. apply value_or_0_worth.
Qed.








(* ====================================================================== *)
(** ** The tax report *)



